(** * A shallow embedding of the [server] package of nikochiko/dns-server

    The wire-format codec (header bit packing, domain-name labels, resource
    records and questions) and the request handler of the latest revision of
    [server.go] are embedded as executable Rocq functions, and the statements
    of the specification are settled against them.

    Conventions of the embedding.
    - A Go [[]byte] is a [list byte]; slices made by [make] have their
      capacity equal to their length, and a sub-slice [buf[lo:hi]] shares the
      backing array with [buf]: the combinator [on_slice] runs a callee on the
      sub-slice and splices what it wrote back into the caller's buffer.
    - A Go [string] is a [string] (a sequence of 8-bit characters).
    - Go's [int] holds lengths and offsets, all far below 2^63: it is [nat].
      [uint8], [uint16] and [uint32] are [Z] with the wrap-around written out.
    - A run-time panic (index or slice bound out of range) is the outcome
      [Panic]; a Go [error] value is an [error], returned next to the other
      results as the source does. *)

From Stdlib.Strings Require Import String Ascii Byte.
From Stdlib Require Import ZArith List Bool Lia Arith.
Import ListNotations.

Local Open Scope Z_scope.

(** ** Outcomes *)

Inductive run (A : Type) : Type :=
| Done (a : A)
| Panic.

Arguments Done {A} a.
Arguments Panic {A}.

Definition bind {A B : Type} (m : run A) (k : A -> run B) : run B :=
  match m with
  | Done a => k a
  | Panic => Panic
  end.

Notation "x <- m ;; k" := (bind m (fun x => k))
  (at level 61, m at next level, right associativity).
Notation "' p <- m ;; k" := (bind m (fun x => match x with p => k end))
  (at level 61, p pattern, m at next level, right associativity).

(** The [error] values of the package, named after their messages. *)
Inductive error : Type :=
| NameTooLong                       (* "domain name cannot be longer than 255 characters" *)
| BufferTooSmall                    (* "buffer too small" *)
| LabelTooLong                      (* "label cannot be longer than 63 characters" *)
| InvalidOpCode (n : Z)             (* "invalid opcode %d" *)
| InvalidResponseCode (n : Z)       (* "invalid response code %d" *)
| BadLength                         (* "argument must be 2 octet long" *)
| UnrecognizedType (code : Z)       (* "unrecognized code: %d" *)
| UnrecognizedClass (code : Z)      (* "unsupported/unrecognized class code: %d" *)
| TruncatedName                     (* the name decoder ran out of input *)
| EncodingName (e : error)          (* "error while encoding domain name: %v" *)
| WritingToConn (e : error)         (* "error while writing to conn: %v" *)
| Transport.                        (* an error of the UDP connection *)

(** ** Bytes and fixed-width integers *)

Definition Z_of_byte (b : byte) : Z := Z.of_N (Byte.to_N b).

(** The conversion [byte(x)]: the low eight bits. *)
Definition byte_of_Z (z : Z) : byte :=
  match Byte.of_N (Z.to_N (z mod 256)) with
  | Some b => b
  | None => x00
  end.

Definition byte_of_nat (n : nat) : byte := byte_of_Z (Z.of_nat n).

Definition uint16 (z : Z) : Z := z mod 65536.
Definition uint32 (z : Z) : Z := z mod 4294967296.

(** The bytes of a string, as [copy(dst, s)] and [[]byte(s)] see them. *)
Definition bytes (s : string) : list byte := list_byte_of_string s.

(** ** Slices *)

(** [buf[i] = b]; out of range it panics. *)
Definition store (buf : list byte) (i : nat) (b : byte) : run (list byte) :=
  if (i <? length buf)%nat
  then Done (firstn i buf ++ b :: skipn (S i) buf)
  else Panic.

(** [copy(dst, src)]: copies [min (len dst) (len src)] bytes and returns
    that number. *)
Definition copy (dst src : list byte) : list byte * nat :=
  let n := Nat.min (length src) (length dst) in
  (firstn n src ++ skipn n dst, n).

(** Runs [f] on the sub-slice [buf[lo:hi]] and writes its bytes back into
    [buf]. The slice expression panics unless [lo <= hi <= cap buf]. *)
Definition on_slice {A : Type} (buf : list byte) (lo hi : nat)
  (f : list byte -> run (list byte * A)) : run (list byte * A) :=
  if ((lo <=? hi) && (hi <=? length buf))%nat
  then '(sub, a) <- f (firstn (hi - lo) (skipn lo buf)) ;;
       Done (firstn lo buf ++ sub ++ skipn hi buf, a)
  else Panic.

(** The same for [buf[lo:]], which panics unless [lo <= len buf]. *)
Definition on_suffix {A : Type} (buf : list byte) (lo : nat)
  (f : list byte -> run (list byte * A)) : run (list byte * A) :=
  if (lo <=? length buf)%nat
  then '(sub, a) <- f (skipn lo buf) ;;
       Done (firstn lo buf ++ sub, a)
  else Panic.

(** ** encoding/binary, big endian *)

Definition PutUint16 (b : list byte) (v : Z) : run (list byte * unit) :=
  match b with
  | _ :: _ :: rest =>
      Done (byte_of_Z (Z.shiftr v 8) :: byte_of_Z v :: rest, tt)
  | _ => Panic
  end.

Definition PutUint32 (b : list byte) (v : Z) : run (list byte * unit) :=
  match b with
  | _ :: _ :: _ :: _ :: rest =>
      Done (byte_of_Z (Z.shiftr v 24) :: byte_of_Z (Z.shiftr v 16)
              :: byte_of_Z (Z.shiftr v 8) :: byte_of_Z v :: rest, tt)
  | _ => Panic
  end.

Definition Uint16 (b : list byte) : run Z :=
  match b with
  | b0 :: b1 :: _ => Done (Z.lor (Z_of_byte b1) (Z.shiftl (Z_of_byte b0) 8))
  | _ => Panic
  end.

(** ** strings *)

Definition dot : ascii := "."%char.

(** [strings.Split(s, ".")]: the pieces of [s] between the dots; a string
    without a dot, the empty one too, is its own single piece. *)
Fixpoint Split (s : string) : list string :=
  match s with
  | EmptyString => [EmptyString]
  | String c s' =>
      if Ascii.eqb c dot then EmptyString :: Split s'
      else match Split s' with
           | label :: rest => String c label :: rest
           | [] => [String c EmptyString]
           end
  end.

(** [strings.HasSuffix(s, suffix)] *)
Definition HasSuffix (s suffix : string) : bool :=
  let n := String.length s in
  let m := String.length suffix in
  ((m <=? n)%nat && String.eqb (substring (n - m) m s) suffix)%bool.

(** [strings.Join(labels, ".")] *)
Definition Join (labels : list string) : string := String.concat "." labels.

(** ** Domain names (resource_records.go) *)

(** The loop of [EncodeDomainName] over the labels; [written] is the
    cursor. *)
Fixpoint encode_labels (labels : list string) (buf : list byte) (written : nat)
  : run (list byte * (nat * option error)) :=
  match labels with
  | [] => Done (buf, (written, None))
  | label :: rest =>
      if (63 <? String.length label)%nat
      then Done (buf, (written, Some LabelTooLong))
      else
        buf <- store buf written (byte_of_nat (String.length label)) ;;
        let written := S written in
        '(buf, n) <- on_slice buf written (written + String.length label)
                       (fun dst => Done (copy dst (bytes label))) ;;
        encode_labels rest buf (written + n)
  end.

Definition EncodeDomainName (buf : list byte) (name : string)
  : run (list byte * (nat * option error)) :=
  if (255 <? String.length name)%nat then Done (buf, (0%nat, Some NameTooLong))
  else if (length buf <? String.length name + 2)%nat
  then Done (buf, (0%nat, Some BufferTooSmall))
  else
    '(buf, (written, err)) <- encode_labels (Split name) buf 0 ;;
    match err with
    | Some e => Done (buf, (written, Some e))
    | None =>
        buf <- store buf written (byte_of_Z 0) ;;
        Done (buf, (S written, None))
    end.

(** ** Record types and classes (resource_records.go)

    A [*QTYPE] is always the address of one of the thirteen package variables
    [TypeA] ... [TypeAll]: it is modelled by the name of the variable, and the
    comparison of two pointers by the equality of the names. The fields of
    the variable are read through [qtype_Type], [qtype_Value] and
    [qtype_Meaning].

    The package declares one class, [ClassIN], and [LookupRecords] compares
    the [*QCLASS] of a record with the one it is asked for, whichever it is.
    A [*QCLASS] is therefore the address of [ClassIN] or of a [QCLASS]
    variable declared elsewhere, [ClassAt addr Class c0 c1 Meaning]: the
    address of the variable and its fields, [Value] being the two octets
    [c0 c1] of a class code, as in every declaration of the package. A
    variable is declared once and never assigned, so two pointers are equal
    exactly when they name the same variable: [QCLASS_eqb] compares the
    address and the fields. Such a variable may repeat the fields of
    [ClassIN] and is still another pointer. *)

Inductive QTYPE : Type :=
| TypeA | TypeNS | TypeMD | TypeMF | TypeCNAME | TypeSOA | TypeWKS
| TypePTR | TypeHINFO | TypeMINFO | TypeMX | TypeTXT | TypeAll.

Definition qtype_Type (q : QTYPE) : string :=
  match q with
  | TypeA => "A" | TypeNS => "NS" | TypeMD => "MD" | TypeMF => "MF"
  | TypeCNAME => "CNAME" | TypeSOA => "SOA" | TypeWKS => "WKS"
  | TypePTR => "PTR" | TypeHINFO => "HINFO" | TypeMINFO => "MINFO"
  | TypeMX => "MX" | TypeTXT => "TXT" | TypeAll => "*"
  end.

Definition qtype_Value (q : QTYPE) : list byte :=
  match q with
  | TypeA => [x00; x01] | TypeNS => [x00; x02] | TypeMD => [x00; x03]
  | TypeMF => [x00; x04] | TypeCNAME => [x00; x05] | TypeSOA => [x00; x06]
  | TypeWKS => [x00; x0b] | TypePTR => [x00; x0c] | TypeHINFO => [x00; x0d]
  | TypeMINFO => [x00; x0e] | TypeMX => [x00; x0f] | TypeTXT => [x00; x10]
  | TypeAll => [x00; xff]
  end.

Definition qtype_Meaning (q : QTYPE) : string :=
  match q with
  | TypeA => "a host address"
  | TypeNS => "an authoritative name server"
  | TypeMD => "a mail destination (Obsolete - use MX)"
  | TypeMF => "a mail forwarder (Obsolete - use MX)"
  | TypeCNAME => "a canonical name for an alias"
  | TypeSOA => "marks the start of a zone of authority"
  | TypeWKS => "a well known service description"
  | TypePTR => "a domain name pointer"
  | TypeHINFO => "host information"
  | TypeMINFO => "mailbox or mail list information"
  | TypeMX => "mail exchange"
  | TypeTXT => "text string"
  | TypeAll => "a request for all records"
  end.

Definition QTYPE_eqb (a b : QTYPE) : bool :=
  match a, b with
  | TypeA, TypeA | TypeNS, TypeNS | TypeMD, TypeMD | TypeMF, TypeMF
  | TypeCNAME, TypeCNAME | TypeSOA, TypeSOA | TypeWKS, TypeWKS
  | TypePTR, TypePTR | TypeHINFO, TypeHINFO | TypeMINFO, TypeMINFO
  | TypeMX, TypeMX | TypeTXT, TypeTXT | TypeAll, TypeAll => true
  | _, _ => false
  end.

(** A Go map with integer keys, as the list of its entries. *)
Fixpoint map_get {V : Type} (m : list (Z * V)) (k : Z) : option V :=
  match m with
  | [] => None
  | (k', v) :: m' => if k =? k' then Some v else map_get m' k
  end.

Definition uintToQtypeMap : list (Z * QTYPE) :=
  [ (1, TypeA); (2, TypeNS); (3, TypeMD); (4, TypeMF); (5, TypeCNAME);
    (6, TypeSOA); (11, TypeWKS); (12, TypePTR); (13, TypeHINFO);
    (14, TypeMINFO); (15, TypeMX); (16, TypeTXT); (255, TypeAll) ].

Definition bytesToQtype (b : list byte) : run (option QTYPE * option error) :=
  if negb (length b =? 2)%nat then Done (None, Some BadLength)
  else
    code <- Uint16 b ;;
    match map_get uintToQtypeMap code with
    | None => Done (None, Some (UnrecognizedType code))
    | Some qtype => Done (Some qtype, None)
    end.

Inductive QCLASS : Type :=
| ClassIN
| ClassAt (addr : nat) (Class : string) (c0 c1 : byte) (Meaning : string).

Definition qclass_Class (c : QCLASS) : string :=
  match c with
  | ClassIN => "IN"
  | ClassAt _ Class _ _ _ => Class
  end.

Definition qclass_Value (c : QCLASS) : list byte :=
  match c with
  | ClassIN => [x00; x01]
  | ClassAt _ _ c0 c1 _ => [c0; c1]
  end.

Definition qclass_Meaning (c : QCLASS) : string :=
  match c with
  | ClassIN => "The Internet!"
  | ClassAt _ _ _ _ Meaning => Meaning
  end.

Definition QCLASS_eqb (a b : QCLASS) : bool :=
  match a, b with
  | ClassIN, ClassIN => true
  | ClassAt addr Class c0 c1 Meaning, ClassAt addr' Class' c0' c1' Meaning' =>
      Nat.eqb addr addr' && String.eqb Class Class'
      && Byte.eqb c0 c0' && Byte.eqb c1 c1' && String.eqb Meaning Meaning'
  | _, _ => false
  end.

Definition bytesToClass (b : list byte) : run (option QCLASS * option error) :=
  if negb (length b =? 2)%nat then Done (None, Some BadLength)
  else
    code <- Uint16 b ;;
    if negb (code =? 1) then Done (None, Some (UnrecognizedClass code))
    else Done (Some ClassIN, None).

(** ** Resource records *)

Record ResourceRecord : Type := mkRR {
  rr_Name : string;
  rr_Type : QTYPE;
  rr_Class : QCLASS;
  rr_TTL : Z;                (* uint32 *)
  rr_Value : list byte
}.

Definition ResourceRecord_Encode (rr : ResourceRecord) (buf : list byte)
  : run (list byte * (nat * option error)) :=
  '(buf, (nWritten, err)) <- EncodeDomainName buf (rr_Name rr) ;;
  match err with
  | Some e => Done (buf, (nWritten, Some e))
  | None =>
      '(buf, n) <- on_suffix buf nWritten
                     (fun dst => Done (copy dst (qtype_Value (rr_Type rr)))) ;;
      let nWritten := (nWritten + n)%nat in
      '(buf, n) <- on_suffix buf nWritten
                     (fun dst => Done (copy dst (qclass_Value (rr_Class rr)))) ;;
      let nWritten := (nWritten + n)%nat in
      '(buf, _) <- on_suffix buf nWritten (fun dst => PutUint32 dst (rr_TTL rr)) ;;
      let nWritten := (nWritten + 4)%nat in
      '(buf, _) <- on_suffix buf nWritten
                     (fun dst => PutUint16 dst
                                   (uint16 (Z.of_nat (length (rr_Value rr))))) ;;
      let nWritten := (nWritten + 2)%nat in
      '(buf, _) <- on_suffix buf nWritten
                     (fun dst => Done (copy dst (rr_Value rr))) ;;
      Done (buf, (nWritten, None))
  end.

Definition zeros (n : nat) : list byte := repeat x00 n.

(** [EncodeSOA] returns [(nil, err)] on an error; [nil] is the empty list. *)
Definition EncodeSOA (mname rname : string)
  (serial refresh retry expire minimum : Z) : run (list byte * option error) :=
  let outputLength := (String.length mname + String.length rname + 24)%nat in
  let buf := zeros outputLength in
  let written := 0%nat in
  '(buf, (moreWritten, err)) <- on_suffix buf written
                                  (fun dst => EncodeDomainName dst mname) ;;
  match err with
  | Some e => Done ([], Some e)
  | None =>
      let written := (written + moreWritten)%nat in
      '(buf, (moreWritten, err)) <- on_suffix buf written
                                      (fun dst => EncodeDomainName dst rname) ;;
      match err with
      | Some e => Done ([], Some e)
      | None =>
          let written := (written + moreWritten)%nat in
          '(buf, _) <- on_suffix buf written (fun dst => PutUint32 dst serial) ;;
          let written := (written + 4)%nat in
          '(buf, _) <- on_suffix buf written (fun dst => PutUint32 dst refresh) ;;
          let written := (written + 4)%nat in
          '(buf, _) <- on_suffix buf written (fun dst => PutUint32 dst retry) ;;
          let written := (written + 4)%nat in
          '(buf, _) <- on_suffix buf written (fun dst => PutUint32 dst expire) ;;
          let written := (written + 4)%nat in
          '(buf, _) <- on_suffix buf written (fun dst => PutUint32 dst minimum) ;;
          Done (buf, None)
      end
  end.

(** ** Headers (server.go) *)

(** [DNSMessageType] is a [bool]. *)
Definition QRQuery : bool := false.
Definition QRResponse : bool := true.

(** [OpCode] and [ResponseCode] are [uint8]. *)
Definition QueryOp : Z := 0.
Definition IQueryOp : Z := 1.
Definition StatusOp : Z := 2.

Definition opCodeMap : list (Z * Z) :=
  [ (0, QueryOp); (1, IQueryOp); (2, StatusOp) ].

(** A missing key yields the zero value next to the error. *)
Definition GetOpCodeFromInt (n : Z) : Z * option error :=
  match map_get opCodeMap (n mod 256) with
  | None => (0, Some (InvalidOpCode n))
  | Some opcode => (opcode, None)
  end.

Definition NoError : Z := 0.
Definition FormatError : Z := 1.
Definition ServerFailure : Z := 2.
Definition NameError : Z := 3.
Definition NotImplemented : Z := 4.
Definition Refused : Z := 5.

Definition responseCodeMap : list (Z * Z) :=
  [ (0, NoError); (1, FormatError); (2, ServerFailure); (3, NameError);
    (4, NotImplemented); (5, Refused) ].

Definition GetResponseCodeFromInt (n : Z) : Z * option error :=
  match map_get responseCodeMap (n mod 256) with
  | None => (0, Some (InvalidResponseCode n))
  | Some rcode => (rcode, None)
  end.

Record DNSHeader : Type := mkHeader {
  ID : Z;                          (* uint16 *)
  Type_ : bool;                    (* DNSMessageType *)
  OpCode : Z;                      (* uint8 *)
  IsAuthoritative : bool;
  IsTruncated : bool;
  RecursionDesired : bool;
  RecursionAvailable : bool;
  ResponseCode : Z;                (* uint8 *)
  QuestionsCount : Z;              (* uint16 *)
  AnswersCount : Z;                (* uint16 *)
  NameserversCount : Z;            (* uint16 *)
  AdditionalRecordsCount : Z       (* uint16 *)
}.

(** The zero value [DNSHeader{}]. *)
Definition zeroHeader : DNSHeader :=
  mkHeader 0 false 0 false false false false 0 0 0 0 0.

(** Assignments to one field of a header. *)
Definition set_ID (h : DNSHeader) (v : Z) : DNSHeader :=
  mkHeader v (Type_ h) (OpCode h) (IsAuthoritative h) (IsTruncated h)
    (RecursionDesired h) (RecursionAvailable h) (ResponseCode h)
    (QuestionsCount h) (AnswersCount h) (NameserversCount h)
    (AdditionalRecordsCount h).
Definition set_Type (h : DNSHeader) (v : bool) : DNSHeader :=
  mkHeader (ID h) v (OpCode h) (IsAuthoritative h) (IsTruncated h)
    (RecursionDesired h) (RecursionAvailable h) (ResponseCode h)
    (QuestionsCount h) (AnswersCount h) (NameserversCount h)
    (AdditionalRecordsCount h).
Definition set_OpCode (h : DNSHeader) (v : Z) : DNSHeader :=
  mkHeader (ID h) (Type_ h) v (IsAuthoritative h) (IsTruncated h)
    (RecursionDesired h) (RecursionAvailable h) (ResponseCode h)
    (QuestionsCount h) (AnswersCount h) (NameserversCount h)
    (AdditionalRecordsCount h).
Definition set_IsAuthoritative (h : DNSHeader) (v : bool) : DNSHeader :=
  mkHeader (ID h) (Type_ h) (OpCode h) v (IsTruncated h)
    (RecursionDesired h) (RecursionAvailable h) (ResponseCode h)
    (QuestionsCount h) (AnswersCount h) (NameserversCount h)
    (AdditionalRecordsCount h).
Definition set_IsTruncated (h : DNSHeader) (v : bool) : DNSHeader :=
  mkHeader (ID h) (Type_ h) (OpCode h) (IsAuthoritative h) v
    (RecursionDesired h) (RecursionAvailable h) (ResponseCode h)
    (QuestionsCount h) (AnswersCount h) (NameserversCount h)
    (AdditionalRecordsCount h).
Definition set_RecursionDesired (h : DNSHeader) (v : bool) : DNSHeader :=
  mkHeader (ID h) (Type_ h) (OpCode h) (IsAuthoritative h) (IsTruncated h)
    v (RecursionAvailable h) (ResponseCode h)
    (QuestionsCount h) (AnswersCount h) (NameserversCount h)
    (AdditionalRecordsCount h).
Definition set_RecursionAvailable (h : DNSHeader) (v : bool) : DNSHeader :=
  mkHeader (ID h) (Type_ h) (OpCode h) (IsAuthoritative h) (IsTruncated h)
    (RecursionDesired h) v (ResponseCode h)
    (QuestionsCount h) (AnswersCount h) (NameserversCount h)
    (AdditionalRecordsCount h).
Definition set_ResponseCode (h : DNSHeader) (v : Z) : DNSHeader :=
  mkHeader (ID h) (Type_ h) (OpCode h) (IsAuthoritative h) (IsTruncated h)
    (RecursionDesired h) (RecursionAvailable h) v
    (QuestionsCount h) (AnswersCount h) (NameserversCount h)
    (AdditionalRecordsCount h).
Definition set_QuestionsCount (h : DNSHeader) (v : Z) : DNSHeader :=
  mkHeader (ID h) (Type_ h) (OpCode h) (IsAuthoritative h) (IsTruncated h)
    (RecursionDesired h) (RecursionAvailable h) (ResponseCode h)
    v (AnswersCount h) (NameserversCount h) (AdditionalRecordsCount h).
Definition set_AnswersCount (h : DNSHeader) (v : Z) : DNSHeader :=
  mkHeader (ID h) (Type_ h) (OpCode h) (IsAuthoritative h) (IsTruncated h)
    (RecursionDesired h) (RecursionAvailable h) (ResponseCode h)
    (QuestionsCount h) v (NameserversCount h) (AdditionalRecordsCount h).
Definition set_NameserversCount (h : DNSHeader) (v : Z) : DNSHeader :=
  mkHeader (ID h) (Type_ h) (OpCode h) (IsAuthoritative h) (IsTruncated h)
    (RecursionDesired h) (RecursionAvailable h) (ResponseCode h)
    (QuestionsCount h) (AnswersCount h) v (AdditionalRecordsCount h).
Definition set_AdditionalRecordsCount (h : DNSHeader) (v : Z) : DNSHeader :=
  mkHeader (ID h) (Type_ h) (OpCode h) (IsAuthoritative h) (IsTruncated h)
    (RecursionDesired h) (RecursionAvailable h) (ResponseCode h)
    (QuestionsCount h) (AnswersCount h) (NameserversCount h) v.

(** [uint16(1) << k] *)
Definition bit (k : Z) : Z := uint16 (Z.shiftl 1 k).

Definition parseMsgType (headerBits : Z) : bool :=
  negb (Z.land headerBits (bit 15) =? 0).

Definition parseOpCode (headerBits : Z) : Z * option error :=
  let opcode :=
    Z.land headerBits (Z.lor (Z.lor (Z.lor (bit 14) (bit 13)) (bit 12)) (bit 11)) in
  let opcode := Z.shiftr opcode 11 in
  GetOpCodeFromInt opcode.

Definition parseAA (headerBits : Z) : bool :=
  negb (Z.land headerBits (bit 10) =? 0).

Definition parseTC (headerBits : Z) : bool :=
  negb (Z.land headerBits (bit 9) =? 0).

Definition parseRD (headerBits : Z) : bool :=
  negb (Z.land headerBits (bit 8) =? 0).

Definition parseRA (headerBits : Z) : bool :=
  negb (Z.land headerBits (bit 7) =? 0).

Definition rcodeMask : Z :=
  Z.lor (Z.lor (Z.lor (bit 3) (bit 2)) (bit 1)) 1.

Definition parseRCode (headerBits : Z) : Z * option error :=
  let rcode := Z.land headerBits rcodeMask in
  GetResponseCodeFromInt rcode.

(** The read-only slice [buf[lo:]]. *)
Definition suffix (buf : list byte) (lo : nat) : run (list byte) :=
  if (lo <=? length buf)%nat then Done (skipn lo buf) else Panic.

(** The read-only slice [buf[lo:hi]]. *)
Definition slice (buf : list byte) (lo hi : nat) : run (list byte) :=
  if ((lo <=? hi) && (hi <=? length buf))%nat
  then Done (firstn (hi - lo) (skipn lo buf))
  else Panic.

(** [h.ReadFrom(buf)]: the receiver is a pointer, so the header is threaded
    through; what has been assigned before an early return stays assigned. *)
Definition ReadFrom (h : DNSHeader) (buf : list byte)
  : run (DNSHeader * option error) :=
  let offset := 0%nat in
  b <- suffix buf (offset / 8) ;;
  id <- Uint16 b ;;
  let h := set_ID h id in
  let offset := (offset + 16)%nat in
  b <- suffix buf (offset / 8) ;;
  headerBits <- Uint16 b ;;
  let offset := (offset + 16)%nat in
  let h := set_Type h (parseMsgType headerBits) in
  let '(opcode, err) := parseOpCode headerBits in
  let h := set_OpCode h opcode in
  match err with
  | Some e => Done (h, Some e)
  | None =>
      let h := set_IsAuthoritative h (parseAA headerBits) in
      let h := set_IsTruncated h (parseTC headerBits) in
      let h := set_RecursionDesired h (parseRD headerBits) in
      let h := set_RecursionAvailable h (parseRA headerBits) in
      let '(rcode, err) := parseRCode headerBits in
      let h := set_ResponseCode h rcode in
      match err with
      | Some e => Done (h, Some e)
      | None =>
          b <- suffix buf (offset / 8) ;;
          v <- Uint16 b ;;
          let h := set_QuestionsCount h v in
          let offset := (offset + 16)%nat in
          b <- suffix buf (offset / 8) ;;
          v <- Uint16 b ;;
          let h := set_AnswersCount h v in
          let offset := (offset + 16)%nat in
          b <- suffix buf (offset / 8) ;;
          v <- Uint16 b ;;
          let h := set_NameserversCount h v in
          let offset := (offset + 16)%nat in
          b <- suffix buf (offset / 8) ;;
          v <- Uint16 b ;;
          let h := set_AdditionalRecordsCount h v in
          Done (h, None)
      end
  end.

Definition headerBitsOf (h : DNSHeader) : Z :=
  let headerBits := 0 in
  let headerBits :=
    if Bool.eqb (Type_ h) QRResponse then Z.lor headerBits (bit 15)
    else headerBits in
  let headerBits := Z.lor headerBits (uint16 (Z.shiftl (OpCode h) 11)) in
  let headerBits :=
    if IsAuthoritative h then Z.lor headerBits (bit 10) else headerBits in
  let headerBits :=
    if IsTruncated h then Z.lor headerBits (bit 9) else headerBits in
  let headerBits :=
    if RecursionDesired h then Z.lor headerBits (bit 8) else headerBits in
  let headerBits :=
    if RecursionAvailable h then Z.lor headerBits (bit 7) else headerBits in
  Z.lor headerBits (Z.land (ResponseCode h) rcodeMask).

Definition encodeHeaderBits (h : DNSHeader) (buf : list byte)
  : run (list byte * unit) :=
  PutUint16 buf (headerBitsOf h).

Definition DNSHeader_Encode (h : DNSHeader) (buf : list byte)
  : run (list byte * (nat * option error)) :=
  '(buf, _) <- on_slice buf 0 2 (fun b => PutUint16 b (ID h)) ;;
  '(buf, _) <- on_slice buf 2 4 (encodeHeaderBits h) ;;
  '(buf, _) <- on_slice buf 4 6 (fun b => PutUint16 b (QuestionsCount h)) ;;
  '(buf, _) <- on_slice buf 6 8 (fun b => PutUint16 b (AnswersCount h)) ;;
  '(buf, _) <- on_slice buf 8 10 (fun b => PutUint16 b (NameserversCount h)) ;;
  '(buf, _) <- on_slice buf 10 12
                 (fun b => PutUint16 b (AdditionalRecordsCount h)) ;;
  Done (buf, (12%nat, None)).

(** ** Questions *)

Record Question : Type := mkQuestion {
  q_Name : string;
  q_Type : QTYPE;
  q_Class : QCLASS
}.

Definition Question_Encode (q : Question) (buf : list byte)
  : run (list byte * (nat * option error)) :=
  '(buf, (wlen, err)) <- EncodeDomainName buf (q_Name q) ;;
  match err with
  | Some e => Done (buf, (wlen, Some (EncodingName e)))
  | None =>
      '(buf, n) <- on_suffix buf wlen
                     (fun dst => Done (copy dst (qtype_Value (q_Type q)))) ;;
      let wlen := (wlen + n)%nat in
      '(buf, n) <- on_suffix buf wlen
                     (fun dst => Done (copy dst (qclass_Value (q_Class q)))) ;;
      let wlen := (wlen + n)%nat in
      Done (buf, (wlen, None))
  end.

(** The labels read by the name decoder: [read] counts the octets consumed
    and [labels] holds the labels seen so far, the latest first. Every step
    consumes at least the length octet, so a [fuel] of the length of the
    input (plus one) is never used up. *)
Fixpoint decode_labels (fuel : nat) (buf : list byte) (read : nat)
  (labels : list string) : nat * list string * option error :=
  match fuel with
  | O => (read, rev labels, Some TruncatedName)
  | S fuel =>
      match buf with
      | [] => (read, rev labels, Some TruncatedName)
      | b :: rest =>
          let n := Byte.to_nat b in
          if (n =? 0)%nat then (S read, rev labels, None)
          else if (length rest <? n)%nat
          then (S read, rev labels, Some TruncatedName)
          else decode_labels fuel (skipn n rest) (S read + n)
                 (string_of_list_byte (firstn n rest) :: labels)
      end
  end.

(** Modelled from the spec: [DecodeDomainName], which [ReadQuestionFrom]
    calls, is not among the source files. The specification (4.2) gives it
    as: reads length-prefixed labels until a zero-length terminator and
    reassembles them with '.' separators, returning the number of octets read
    and the name, or an error. An input that ends before the terminator is
    the decode error of a truncated buffer (7). Compression pointers are
    outside the specification and are read as ordinary length octets. *)
Definition DecodeDomainName (buf : list byte) : nat * string * option error :=
  let '(read, labels, err) := decode_labels (S (length buf)) buf 0 [] in
  match err with
  | Some e => (read, EmptyString, Some e)
  | None => (read, Join labels, None)
  end.

Definition ReadQuestionFrom (buf : list byte)
  : run (nat * option Question * option error) :=
  let '(bytesRead, name, err) := DecodeDomainName buf in
  match err with
  | Some e => Done (bytesRead, None, Some e)
  | None =>
      b <- slice buf bytesRead (bytesRead + 2) ;;
      '(qtype, err) <- bytesToQtype b ;;
      match qtype, err with
      | Some qtype, None =>
          let bytesRead := (bytesRead + 2)%nat in
          b <- slice buf bytesRead (bytesRead + 2) ;;
          '(qclass, err) <- bytesToClass b ;;
          match qclass, err with
          | Some qclass, None =>
              let bytesRead := (bytesRead + 2)%nat in
              let q := mkQuestion name qtype qclass in
              Done (bytesRead, Some q, None)
          | _, Some e => Done (bytesRead, None, Some e)
          | None, None => Panic     (* a nil class without an error: unreachable *)
          end
      | _, Some e => Done (bytesRead, None, Some e)
      | None, None => Panic         (* a nil type without an error: unreachable *)
      end
  end.

(** ** The server *)

Record DNSServer : Type := mkServer {
  laddr : string;
  records : list ResourceRecord
}.

Definition NewDNSServer (laddr recordsFile : string)
  : run (DNSServer * option error) :=
  let records := [] in
  records <-
    (if String.eqb recordsFile ""
     then
       '(soa, _) <- EncodeSOA "kausm.in" "kaustubh.kausm.in" 1 600 600 600 600 ;;
       let soaRecord := mkRR "kausm.in" TypeSOA ClassIN 600 soa in
       let record1 :=
         mkRR "test.kausm.in" TypeA ClassIN 600 [x86; xd1; x94; x32] in
       Done (records ++ [record1; soaRecord])
     else Done records) ;;
  Done (mkServer laddr records, None).

Definition setDefaultResponseHeaders (h : DNSHeader) : DNSHeader :=
  let h := set_Type h QRResponse in
  let h := set_RecursionAvailable h false in
  let h := set_IsTruncated h false in
  set_IsAuthoritative h false.

(** One of the four loops of [RespondToUDP]: each element is encoded into
    [buf[bytesWritten:]]; the first error ends the function. *)
Fixpoint encode_each {A : Type}
  (enc : A -> list byte -> run (list byte * (nat * option error)))
  (xs : list A) (buf : list byte) (bytesWritten : nat)
  : run (list byte * (nat * option error)) :=
  match xs with
  | [] => Done (buf, (bytesWritten, None))
  | x :: xs' =>
      '(buf, (n, err)) <- on_suffix buf bytesWritten (enc x) ;;
      match err with
      | Some e => Done (buf, (bytesWritten, Some e))
      | None => encode_each enc xs' buf (bytesWritten + n)
      end
  end.

Section Server.

(** [strings.ToLower] of the Go library. *)
Variable ToLower : string -> string.

(** [conn.WriteTo(b, returnAddr)]: the error of the connection, if any,
    for the datagram [b]. *)
Variable WriteTo : list byte -> option error.

Variable srv : DNSServer.

Definition LookupRecords (recordType : QTYPE) (recordClass : QCLASS)
  (name : string) : option ResourceRecord :=
  find (fun r =>
          QTYPE_eqb (rr_Type r) recordType
          && QCLASS_eqb (rr_Class r) recordClass
          && String.eqb (ToLower (rr_Name r)) (ToLower name))
       (records srv).

Definition GetAnswers (q : Question)
  : list ResourceRecord * list ResourceRecord * list ResourceRecord * bool :=
  let isAuthoritative := HasSuffix (ToLower (q_Name q)) "kausm.in" in
  let answer := LookupRecords (q_Type q) (q_Class q) (q_Name q) in
  let answers :=
    match answer with
    | Some r => [] ++ [r]
    | None => []
    end in
  (answers, [], [], isAuthoritative).

(** What [RespondToUDP] leaves behind: the header it was given a pointer
    to, the datagrams handed to the connection, the buffer it built and the
    error it returns. *)
Record responded : Type := mkResponded {
  r_headers : DNSHeader;
  r_sent : list (list byte);
  r_buf : list byte;
  r_bytesWritten : nat;
  r_err : option error
}.

Definition RespondToUDP (headers : DNSHeader) (questions : list Question)
  (answers nameservers additionalRecords : list ResourceRecord)
  : run responded :=
  let headers := set_QuestionsCount headers (uint16 (Z.of_nat (length questions))) in
  let headers := set_AnswersCount headers (uint16 (Z.of_nat (length answers))) in
  let headers :=
    set_NameserversCount headers (uint16 (Z.of_nat (length nameservers))) in
  let headers :=
    set_AdditionalRecordsCount headers
      (uint16 (Z.of_nat (length additionalRecords))) in
  let buf := zeros 512 in
  '(buf, (bytesWritten, err)) <- DNSHeader_Encode headers buf ;;
  match err with
  | Some e => Done (mkResponded headers [] buf bytesWritten (Some e))
  | None =>
  '(buf, (bytesWritten, err)) <-
     encode_each Question_Encode questions buf bytesWritten ;;
  match err with
  | Some e => Done (mkResponded headers [] buf bytesWritten (Some e))
  | None =>
  '(buf, (bytesWritten, err)) <-
     encode_each ResourceRecord_Encode answers buf bytesWritten ;;
  match err with
  | Some e => Done (mkResponded headers [] buf bytesWritten (Some e))
  | None =>
  '(buf, (bytesWritten, err)) <-
     encode_each ResourceRecord_Encode nameservers buf bytesWritten ;;
  match err with
  | Some e => Done (mkResponded headers [] buf bytesWritten (Some e))
  | None =>
  '(buf, (bytesWritten, err)) <-
     encode_each ResourceRecord_Encode additionalRecords buf bytesWritten ;;
  match err with
  | Some e => Done (mkResponded headers [] buf bytesWritten (Some e))
  | None =>
      datagram <- slice buf 0 bytesWritten ;;
      match WriteTo datagram with
      | Some e =>
          Done (mkResponded headers [datagram] buf bytesWritten
                  (Some (WritingToConn e)))
      | None => Done (mkResponded headers [datagram] buf bytesWritten None)
      end
  end end end end end.

(** The state of the question loop of [handleUDPPacket]. *)
Record answering : Type := mkAnswering {
  a_rlen : nat;
  a_headers : DNSHeader;
  a_questions : list Question;
  a_answers : list ResourceRecord;
  a_nameservers : list ResourceRecord;
  a_additionals : list ResourceRecord
}.

(** The loop [for qi := uint16(0); qi < headers.QuestionsCount; qi++], with
    [todo] iterations left; [None] is the [return] after a question that
    could not be read. *)
Fixpoint read_questions (todo : nat) (buf : list byte) (st : answering)
  : run (option answering) :=
  match todo with
  | O => Done (Some st)
  | S todo =>
      b <- suffix buf (a_rlen st) ;;
      '(bytesRead, q, err) <- ReadQuestionFrom b ;;
      let rlen := (a_rlen st + bytesRead)%nat in
      match q, err with
      | _, Some _ => Done None
      | None, None => Panic
      | Some q, None =>
          let questions := a_questions st ++ [q] in
          let '(answersi, nameserversi, additionalsi, isAuthoritative) :=
            GetAnswers q in
          let headers := set_IsAuthoritative (a_headers st) isAuthoritative in
          let headers :=
            if isAuthoritative && (length answersi =? 0)%nat
            then set_ResponseCode headers NameError
            else headers in
          read_questions todo buf
            (mkAnswering rlen headers questions
               (a_answers st ++ answersi)
               (a_nameservers st ++ nameserversi)
               (a_additionals st ++ additionalsi))
      end
  end.

(** [handleUDPPacket]: the datagrams it hands to the connection. *)
Definition handleUDPPacket (buf : list byte) : run (list (list byte)) :=
  let rlen := 0%nat in
  let headers := zeroHeader in
  '(headers, err) <- ReadFrom headers buf ;;
  match err with
  | Some _ => Done []
  | None =>
      let rlen := (rlen + 12)%nat in
      let headers := setDefaultResponseHeaders headers in
      if negb (Bool.eqb (Type_ headers) QRQuery)
         || negb (OpCode headers =? QueryOp)
      then
        let headers := set_ResponseCode headers NotImplemented in
        let headers := set_AnswersCount headers 0 in
        r <- RespondToUDP headers [] [] [] [] ;;
        Done (r_sent r)
      else
        st <- read_questions (Z.to_nat (QuestionsCount headers)) buf
                (mkAnswering rlen headers [] [] [] []) ;;
        match st with
        | None => Done []
        | Some st =>
            r <- RespondToUDP (a_headers st) (a_questions st) (a_answers st)
                   (a_nameservers st) (a_additionals st) ;;
            Done (r_sent r)
        end
  end.

End Server.

(** The lower-casing of the letters A to Z, which [strings.ToLower] is on a
    name of ASCII characters. *)
Definition lower_ascii (c : ascii) : ascii :=
  let n := nat_of_ascii c in
  if ((65 <=? n) && (n <=? 90))%nat then ascii_of_nat (n + 32) else c.

Fixpoint ToLowerASCII (s : string) : string :=
  match s with
  | EmptyString => EmptyString
  | String c s' => String (lower_ascii c) (ToLowerASCII s')
  end.

(** The server that [NewDNSServer] builds without a records file. *)
Definition defaultServer : DNSServer :=
  match NewDNSServer "127.0.0.1:1053" "" with
  | Done (srv, _) => srv
  | Panic => mkServer "127.0.0.1:1053" []
  end.

(** ** Statements' vocabulary *)

(** The wire form of a label: its length octet, then its octets. *)
Definition wire_label (label : string) : list byte :=
  byte_of_nat (String.length label) :: bytes label.

(** The wire form of a name: the labels, then the zero-length root label. *)
Definition wire_name (name : string) : list byte :=
  flat_map wire_label (Split name) ++ [x00].

(** The number of octets of the encoded name, the length-prefix octets and
    the terminating root label included. *)
Definition encoded_length (name : string) : nat :=
  (list_sum (map (fun label => 1 + String.length label) (Split name)) + 1)%nat.

(** The labels of a valid name have between 1 and 63 octets. *)
Definition valid_label (label : string) : Prop :=
  (1 <= String.length label <= 63)%nat.

(** A header with every field inside its type and inside the enumerations
    of opcodes and response codes. *)
Definition valid_header (h : DNSHeader) : Prop :=
  0 <= ID h < 65536
  /\ (OpCode h = QueryOp \/ OpCode h = IQueryOp \/ OpCode h = StatusOp)
  /\ (ResponseCode h = NoError \/ ResponseCode h = FormatError
      \/ ResponseCode h = ServerFailure \/ ResponseCode h = NameError
      \/ ResponseCode h = NotImplemented \/ ResponseCode h = Refused)
  /\ 0 <= QuestionsCount h < 65536
  /\ 0 <= AnswersCount h < 65536
  /\ 0 <= NameserversCount h < 65536
  /\ 0 <= AdditionalRecordsCount h < 65536.

(** A name with an empty label: the empty name, or one with a leading, a
    trailing or a doubled dot. *)
Definition has_empty_label (name : string) : Prop :=
  name = EmptyString
  \/ (exists b, name = ("." ++ b)%string)
  \/ (exists a, name = (a ++ ".")%string)
  \/ (exists a b, name = (a ++ ".." ++ b)%string).

(** [n] times the letter a. *)
Fixpoint letters (n : nat) : string :=
  match n with
  | O => EmptyString
  | S n => String "a" (letters n)
  end.

(** A name of 254 octets, in labels of 63, 63, 63 and 62 octets. *)
Definition name254 : string :=
  (letters 63 ++ "." ++ letters 63 ++ "." ++ letters 63 ++ "." ++ letters 62)%string.

(** The twelve octets of a header on the wire. *)
Definition header_bytes (h : DNSHeader) : list byte :=
  [ byte_of_Z (Z.shiftr (ID h) 8); byte_of_Z (ID h);
    byte_of_Z (Z.shiftr (headerBitsOf h) 8); byte_of_Z (headerBitsOf h);
    byte_of_Z (Z.shiftr (QuestionsCount h) 8); byte_of_Z (QuestionsCount h);
    byte_of_Z (Z.shiftr (AnswersCount h) 8); byte_of_Z (AnswersCount h);
    byte_of_Z (Z.shiftr (NameserversCount h) 8);
    byte_of_Z (NameserversCount h);
    byte_of_Z (Z.shiftr (AdditionalRecordsCount h) 8);
    byte_of_Z (AdditionalRecordsCount h) ].

(** A record of the table answers a lookup when its type and class are the
    queried ones and its name equals the queried name, both lower-cased. *)
Definition record_matches (ToLower : string -> string) (recordType : QTYPE)
  (recordClass : QCLASS) (name : string) (r : ResourceRecord) : Prop :=
  rr_Type r = recordType /\ rr_Class r = recordClass
  /\ ToLower (rr_Name r) = ToLower name.

(** The header of the reply that [handleUDPPacket] gives to a request whose
    header is [h]. *)
Definition notImplementedHeader (h : DNSHeader) : DNSHeader :=
  mkHeader (ID h) QRResponse (OpCode h) false false (RecursionDesired h) false
    NotImplemented 0 0 0 0.

(** A standard query, recursion desired, with the one question
    nosuch.kausm.in A IN. *)
Definition queryNoSuch : list byte :=
  [x00; x2a; x01; x00; x00; x01; x00; x00; x00; x00; x00; x00]
  ++ wire_name "nosuch.kausm.in" ++ [x00; x01; x00; x01].

(** The A record of the default table. *)
Definition record1 : ResourceRecord :=
  mkRR "test.kausm.in" TypeA ClassIN 600 [x86; xd1; x94; x32].

(** The record of [TestEncodeRR]. *)
Definition testRR : ResourceRecord :=
  mkRR "testing.kausm.in" TypeA ClassIN 4200 [x2a; x45; xff; x01].

(** The header of [TestDNSHeaderEncodeQuery]. *)
Definition testQueryHeader : DNSHeader :=
  mkHeader 42 QRQuery QueryOp false false true false NoError 1 0 0 0.

(** ** The previous revision of server.go

    The file holds an earlier revision of the server next to the latest one.
    Its header codec is the same; its lookup compares names of types and
    classes and the record name as they are, its handler drops the error of
    [ReadFrom] and answers nothing to a standard query, and its
    [RespondToUDP] has no questions and writes the whole buffer. *)

Module Previous.

Section Server.

Variable WriteTo : list byte -> option error.

Variable srv : DNSServer.

Definition LookupRecords (recordType recordClass name : string)
  : option ResourceRecord :=
  find (fun r =>
          String.eqb (qtype_Type (rr_Type r)) recordType
          && String.eqb (qclass_Class (rr_Class r)) recordClass
          && String.eqb (rr_Name r) name)
       (records srv).

Definition setDefaultHeaders (h : DNSHeader) : DNSHeader :=
  let h := set_RecursionAvailable h false in
  let h := set_IsTruncated h false in
  set_IsAuthoritative h false.

Definition RespondToUDP (headers : DNSHeader)
  (answers nameservers additionalRecords : list ResourceRecord)
  : run responded :=
  let headers := set_AnswersCount headers (uint16 (Z.of_nat (length answers))) in
  let headers :=
    set_NameserversCount headers (uint16 (Z.of_nat (length nameservers))) in
  let headers :=
    set_AdditionalRecordsCount headers
      (uint16 (Z.of_nat (length additionalRecords))) in
  let buf := zeros 512 in
  '(buf, (bytesWritten, err)) <- DNSHeader_Encode headers buf ;;
  match err with
  | Some e => Done (mkResponded headers [] buf bytesWritten (Some e))
  | None =>
  '(buf, (bytesWritten, err)) <-
     encode_each ResourceRecord_Encode answers buf bytesWritten ;;
  match err with
  | Some e => Done (mkResponded headers [] buf bytesWritten (Some e))
  | None =>
  '(buf, (bytesWritten, err)) <-
     encode_each ResourceRecord_Encode nameservers buf bytesWritten ;;
  match err with
  | Some e => Done (mkResponded headers [] buf bytesWritten (Some e))
  | None =>
  '(buf, (bytesWritten, err)) <-
     encode_each ResourceRecord_Encode additionalRecords buf bytesWritten ;;
  match err with
  | Some e => Done (mkResponded headers [] buf bytesWritten (Some e))
  | None =>
      match WriteTo buf with
      | Some e =>
          Done (mkResponded headers [buf] buf bytesWritten
                  (Some (WritingToConn e)))
      | None => Done (mkResponded headers [buf] buf bytesWritten None)
      end
  end end end end.

(** [handleUDPPacket(conn, buf, rlen, returnAddr)]: the error of [ReadFrom]
    is dropped, the header keeps what was assigned before it. *)
Definition handleUDPPacket (buf : list byte) (rlen : nat)
  : run (list (list byte)) :=
  let headers := zeroHeader in
  '(headers, _) <- ReadFrom headers buf ;;
  let headers := setDefaultHeaders headers in
  if negb (Bool.eqb (Type_ headers) QRQuery)
     || negb (OpCode headers =? QueryOp)
  then
    let headers := set_ResponseCode headers NotImplemented in
    let headers := set_AnswersCount headers 0 in
    r <- RespondToUDP headers [] [] [] ;;
    Done (r_sent r)
  else Done [].

End Server.

End Previous.

(** ** More vocabulary *)

(** A 16-bit and a 32-bit value as big-endian octets. *)
Definition be16_bytes (v : Z) : list byte :=
  [byte_of_Z (Z.shiftr v 8); byte_of_Z v].

Definition be32_bytes (v : Z) : list byte :=
  [byte_of_Z (Z.shiftr v 24); byte_of_Z (Z.shiftr v 16);
   byte_of_Z (Z.shiftr v 8); byte_of_Z v].

(** The 16-bit value of two octets, the first the high one. *)
Definition be16 (b0 b1 : byte) : Z :=
  Z.lor (Z_of_byte b1) (Z.shiftl (Z_of_byte b0) 8).

(** The opcode field, bits 6 to 3 of the third octet of a message, and the
    response-code field, bits 3 to 0 of the fourth. *)
Definition opcode_field (b2 : byte) : Z := (Z_of_byte b2 / 8) mod 16.
Definition rcode_field (b3 : byte) : Z := Z_of_byte b3 mod 16.

(** A message with the three reserved bits of its fourth octet cleared. *)
Definition clear_reserved (buf : list byte) : list byte :=
  match buf with
  | b0 :: b1 :: b2 :: b3 :: rest =>
      b0 :: b1 :: b2 :: byte_of_Z (Z.land (Z_of_byte b3) 143) :: rest
  | _ => buf
  end.

(** The 256 octets, and a test run on every pair of them. *)
Definition all_bytes : list byte := map byte_of_nat (seq 0 256).

Definition forall_bytes2 (P : byte -> byte -> bool) : bool :=
  forallb (fun a => forallb (P a) all_bytes) all_bytes.

(** On the flag octets [b2 b3]: the parse functions read the two fields
    where [opcode_field] and [rcode_field] say. *)
Definition fields_check (b2 b3 : byte) : bool :=
  let headerBits := be16 b2 b3 in
  (Z.shiftr
     (Z.land headerBits
        (Z.lor (Z.lor (Z.lor (bit 14) (bit 13)) (bit 12)) (bit 11))) 11
   =? opcode_field b2)
  && (Z.land headerBits rcodeMask =? rcode_field b3).

(** On the flag octets [b2 b3], when both codes are known: packing what
    the parse functions read gives the octets back, the reserved bits
    cleared. *)
Definition repack_check (b2 b3 : byte) : bool :=
  let headerBits := be16 b2 b3 in
  match parseOpCode headerBits, parseRCode headerBits with
  | (opcode, None), (rcode, None) =>
      let h :=
        mkHeader 0 (parseMsgType headerBits) opcode (parseAA headerBits)
          (parseTC headerBits) (parseRD headerBits) (parseRA headerBits)
          rcode 0 0 0 0 in
      Byte.eqb (byte_of_Z (Z.shiftr (headerBitsOf h) 8)) b2
      && Byte.eqb (byte_of_Z (headerBitsOf h))
           (byte_of_Z (Z.land (Z_of_byte b3) 143))
  | _, _ => true
  end.

(** The wire form of a question and of what precedes the value in a
    record. *)
Definition wire_question (q : Question) : list byte :=
  wire_name (q_Name q) ++ qtype_Value (q_Type q) ++ qclass_Value (q_Class q).

Definition wire_record_head (rr : ResourceRecord) : list byte :=
  wire_name (rr_Name rr) ++ qtype_Value (rr_Type rr)
  ++ qclass_Value (rr_Class rr) ++ be32_bytes (rr_TTL rr)
  ++ be16_bytes (uint16 (Z.of_nat (length (rr_Value rr)))).

(** A name that [EncodeDomainName] accepts, given room. *)
Definition encodable (name : string) : Prop :=
  (String.length name <= 255)%nat
  /\ Forall (fun label => (String.length label <= 63)%nat) (Split name).

(** ** Basic facts on bytes and slices *)

Lemma firstn_length_app {A : Type} (a b : list A) :
  firstn (length a) (a ++ b) = a.
Proof.
  induction a as [|x a IH]; simpl.
  - now destruct b.
  - now rewrite IH.
Qed.

Lemma skipn_length_app {A : Type} (a b : list A) :
  skipn (length a) (a ++ b) = b.
Proof.
  induction a as [|x a IH]; simpl; auto.
Qed.

Lemma byte_of_Z_small (z : Z) :
  0 <= z < 256 -> Z_of_byte (byte_of_Z z) = z.
Proof.
  intros Hz. unfold Z_of_byte, byte_of_Z.
  rewrite Z.mod_small by lia.
  destruct (Byte.of_N (Z.to_N z)) as [b|] eqn:E.
  - apply Byte.to_of_N in E. rewrite E. lia.
  - apply Byte.of_N_None_iff in E. lia.
Qed.

Lemma Z_of_byte_range (b : byte) : 0 <= Z_of_byte b < 256.
Proof.
  unfold Z_of_byte. pose proof (Byte.to_N_bounded b). lia.
Qed.

Lemma byte_of_nat_small (n : nat) :
  (n <= 255)%nat -> Byte.to_nat (byte_of_nat n) = n.
Proof.
  intros Hn. unfold byte_of_nat.
  pose proof (byte_of_Z_small (Z.of_nat n) ltac:(lia)) as H.
  unfold Z_of_byte in H. rewrite Byte.to_nat_via_N. lia.
Qed.

Lemma bytes_length (s : string) : length (bytes s) = String.length s.
Proof.
  unfold bytes. induction s as [|c s IH]; simpl; auto.
Qed.


(** ** Big-endian integers *)

Lemma byte_of_Z_mod (z : Z) : Z_of_byte (byte_of_Z z) = z mod 256.
Proof.
  rewrite <- (byte_of_Z_small (z mod 256)) by (apply Z.mod_pos_bound; lia).
  unfold byte_of_Z. now rewrite Z.mod_mod by lia.
Qed.

Lemma land_low_high (a b : Z) : 0 <= a < 256 -> Z.land a (Z.shiftl b 8) = 0.
Proof.
  intros Ha. apply Z.bits_inj'. intros n Hn.
  rewrite Z.land_spec, Z.bits_0.
  destruct (Z.ltb_spec n 8).
  - rewrite Z.shiftl_spec_low by lia. apply andb_false_r.
  - rewrite <- (Z.mod_small a (2 ^ 8)) by (change (2 ^ 8) with 256; lia).
    rewrite Z.mod_pow2_bits_high by lia. reflexivity.
Qed.

Lemma lor_low_high (a b : Z) :
  0 <= a < 256 -> Z.lor a (Z.shiftl b 8) = a + 256 * b.
Proof.
  intros Ha. pose proof (land_low_high a b Ha) as H.
  rewrite <- Z.lxor_lor, <- Z.add_nocarry_lxor by exact H.
  rewrite Z.shiftl_mul_pow2 by lia. change (2 ^ 8) with 256. lia.
Qed.

Lemma Uint16_range (b0 b1 : byte) (rest : list byte) :
  exists v, Uint16 (b0 :: b1 :: rest) = Done v /\ 0 <= v < 65536.
Proof.
  eexists. split; [reflexivity|].
  pose proof (Z_of_byte_range b0). pose proof (Z_of_byte_range b1).
  rewrite lor_low_high by lia. lia.
Qed.

Lemma Uint16_PutUint16 (v : Z) (rest : list byte) :
  0 <= v < 65536 ->
  Uint16 (byte_of_Z (Z.shiftr v 8) :: byte_of_Z v :: rest) = Done v.
Proof.
  intros Hv. unfold Uint16. f_equal.
  rewrite !byte_of_Z_mod.
  rewrite lor_low_high by (apply Z.mod_pos_bound; lia).
  rewrite Z.shiftr_div_pow2 by lia. change (2 ^ 8) with 256.
  rewrite (Z.mod_small (v / 256)) by (split; [apply Z.div_pos | apply Z.div_lt_upper_bound]; lia).
  pose proof (Z.div_mod v 256). lia.
Qed.

(** ** Headers *)

Lemma DNSHeader_Encode_ok (h : DNSHeader) (buf : list byte) :
  (12 <= length buf)%nat ->
  DNSHeader_Encode h buf = Done (header_bytes h ++ skipn 12 buf, (12%nat, None)).
Proof.
  intros Hlen.
  do 12 (destruct buf as [|? buf]; [simpl in Hlen; lia|]).
  reflexivity.
Qed.

(** On the bits that [encodeHeaderBits] packs for a valid header, the parse
    functions give back every flag and both codes. *)
Lemma headerBits_parse (h : DNSHeader) :
  valid_header h ->
  0 <= headerBitsOf h < 65536
  /\ parseMsgType (headerBitsOf h) = Type_ h
  /\ parseOpCode (headerBitsOf h) = (OpCode h, None)
  /\ parseAA (headerBitsOf h) = IsAuthoritative h
  /\ parseTC (headerBitsOf h) = IsTruncated h
  /\ parseRD (headerBitsOf h) = RecursionDesired h
  /\ parseRA (headerBitsOf h) = RecursionAvailable h
  /\ parseRCode (headerBitsOf h) = (ResponseCode h, None).
Proof.
  destruct h as [id ty op aa tc rd ra rc qc ac nc xc].
  unfold valid_header. cbn [ID Type_ OpCode IsAuthoritative IsTruncated
    RecursionDesired RecursionAvailable ResponseCode QuestionsCount
    AnswersCount NameserversCount AdditionalRecordsCount].
  intros (_ & Hop & Hrc & _).
  destruct Hop as [-> | [-> | ->]];
    destruct Hrc as [-> | [-> | [-> | [-> | [-> | ->]]]]];
    destruct ty, aa, tc, rd, ra;
    vm_compute; repeat split; congruence.
Qed.

Lemma ReadFrom_header_bytes (h h0 : DNSHeader) (rest : list byte) :
  valid_header h ->
  ReadFrom h0 (header_bytes h ++ rest) = Done (h, None).
Proof.
  intros Hv.
  destruct (headerBits_parse h Hv)
    as (Hb & Hty & Hop & Haa & Htc & Hrd & Hra & Hrc).
  destruct Hv as (Hid & _ & _ & Hqc & Hac & Hnc & Hxc).
  unfold ReadFrom, header_bytes, suffix.
  cbn [app length Nat.leb Nat.div Nat.divmod fst Nat.add skipn bind].
  rewrite !Uint16_PutUint16 by assumption.
  cbn [bind]. rewrite Hop, Hrc. cbn [bind].
  rewrite Hty, Haa, Htc, Hrd, Hra.
  destruct h; reflexivity.
Qed.

(** ** Domain names *)

Lemma store_frame (pre post : list byte) (old b : byte) :
  store (pre ++ old :: post) (length pre) b = Done (pre ++ b :: post).
Proof.
  unfold store.
  assert (H : (length pre <? length (pre ++ old :: post))%nat = true).
  { apply Nat.ltb_lt. rewrite length_app. simpl. lia. }
  rewrite H. rewrite firstn_length_app.
  change (S (length pre)) with (1 + length pre)%nat.
  rewrite <- skipn_skipn. rewrite skipn_length_app. reflexivity.
Qed.

Lemma copy_exact (dst src : list byte) :
  length dst = length src -> copy dst src = (src, length src).
Proof.
  intros H. unfold copy. rewrite H, Nat.min_id.
  rewrite firstn_all. rewrite <- H, skipn_all. now rewrite app_nil_r.
Qed.

Lemma on_slice_frame {A : Type} (pre mid post : list byte) (lo hi : nat)
  (f : list byte -> run (list byte * A)) :
  lo = length pre -> hi = (lo + length mid)%nat ->
  on_slice (pre ++ mid ++ post) lo hi f =
  '(sub, a) <- f mid ;; Done (pre ++ sub ++ post, a).
Proof.
  intros -> ->. unfold on_slice.
  assert (H : ((length pre <=? length pre + length mid)
               && (length pre + length mid <=? length (pre ++ mid ++ post)))%nat
              = true).
  { apply andb_true_iff. split; apply Nat.leb_le; rewrite ?length_app; lia. }
  rewrite H.
  replace (length pre + length mid - length pre)%nat with (length mid) by lia.
  rewrite skipn_length_app, firstn_length_app, firstn_length_app.
  rewrite Nat.add_comm, <- skipn_skipn, skipn_length_app, skipn_length_app.
  reflexivity.
Qed.

(** The label loop on a buffer cut as [pre ++ room ++ post], the cursor
    standing after [pre]: it overwrites [room] and nothing else. *)
Lemma encode_labels_frame (labels : list string) :
  forall pre room post,
    Forall (fun label => (String.length label <= 63)%nat) labels ->
    length room = length (flat_map wire_label labels) ->
    encode_labels labels (pre ++ room ++ post) (length pre) =
    Done (pre ++ flat_map wire_label labels ++ post,
          ((length pre + length room)%nat, None)).
Proof.
  induction labels as [|label rest IH]; intros pre room post Hall Hlen.
  - simpl in *. destruct room; [|discriminate]. simpl.
    now rewrite Nat.add_0_r.
  - inversion Hall as [|? ? Hl Hrest]; subst.
    simpl in Hlen. rewrite length_app, bytes_length in Hlen.
    destruct room as [|old room]; [discriminate|].
    injection Hlen as Hlen.
    cbn [encode_labels].
    assert (Hlt : (63 <? String.length label)%nat = false)
      by (apply Nat.ltb_ge; lia).
    rewrite Hlt.
    change ((old :: room) ++ post) with (old :: room ++ post).
    rewrite store_frame. cbn [bind].
    set (mid := firstn (String.length label) room).
    set (room' := skipn (String.length label) room).
    assert (Hroom : room = mid ++ room') by (symmetry; apply firstn_skipn).
    assert (Hmid : length mid = String.length label).
    { unfold mid. rewrite length_firstn. lia. }
    assert (Hroom' : length room' = length (flat_map wire_label rest)).
    { unfold room'. rewrite length_skipn. lia. }
    rewrite Hroom.
    replace (pre ++ byte_of_nat (String.length label) :: (mid ++ room') ++ post)
      with ((pre ++ [byte_of_nat (String.length label)]) ++ mid ++ room' ++ post)
      by (rewrite <- !app_assoc; reflexivity).
    rewrite on_slice_frame
      by (rewrite ?length_app; simpl; lia).
    rewrite copy_exact by (rewrite bytes_length; exact Hmid).
    cbn [bind].
    replace (S (length pre) + length (bytes label))%nat
      with (length (pre ++ wire_label label))
      by (unfold wire_label; rewrite !length_app; simpl; lia).
    replace ((pre ++ [byte_of_nat (String.length label)]) ++ bytes label ++ room' ++ post)
      with ((pre ++ wire_label label) ++ room' ++ post)
      by (unfold wire_label; rewrite <- !app_assoc; reflexivity).
    rewrite (IH _ _ _ Hrest Hroom').
    f_equal. f_equal.
    + simpl. rewrite <- !app_assoc. reflexivity.
    + f_equal. unfold wire_label. rewrite !length_app. simpl.
      rewrite length_app, bytes_length. lia.
Qed.

Lemma Split_cons (s : string) : exists label rest, Split s = label :: rest.
Proof.
  destruct s as [|c s]; simpl; [eauto|].
  destruct (Ascii.eqb c dot); [eauto|].
  destruct (Split s); eauto.
Qed.

Lemma wire_labels_length (name : string) :
  length (flat_map wire_label (Split name)) = S (String.length name).
Proof.
  induction name as [|c name IH]; [reflexivity|].
  cbn [Split String.length].
  destruct (Ascii.eqb c dot).
  - cbn [flat_map]. rewrite length_app, IH. reflexivity.
  - destruct (Split name) as [|label rest]; [discriminate|].
    cbn [flat_map] in *. rewrite length_app in *.
    unfold wire_label in *. cbn [length] in *.
    rewrite bytes_length in *. cbn [String.length]. lia.
Qed.

Lemma encoded_length_eq (name : string) :
  encoded_length name = (String.length name + 2)%nat.
Proof.
  unfold encoded_length.
  enough (H : list_sum (map (fun label => (1 + String.length label)%nat)
                          (Split name)) = S (String.length name)) by lia.
  induction name as [|c name IH]; [reflexivity|].
  cbn [Split String.length].
  destruct (Ascii.eqb c dot).
  - unfold list_sum in *. simpl in *. lia.
  - destruct (Split name) as [|label rest]; [discriminate|].
    unfold list_sum in *. simpl in *. lia.
Qed.

Lemma wire_name_length (name : string) :
  length (wire_name name) = encoded_length name.
Proof.
  unfold wire_name. rewrite length_app, wire_labels_length, encoded_length_eq.
  simpl. lia.
Qed.

Lemma Join_cons (label next : string) (rest : list string) :
  Join (label :: next :: rest) = (label ++ "." ++ Join (next :: rest))%string.
Proof. reflexivity. Qed.

Lemma Join_Split (name : string) : Join (Split name) = name.
Proof.
  induction name as [|c name IH]; [reflexivity|].
  cbn [Split].
  destruct (Split_cons name) as (label & rest & Hs).
  destruct (Ascii.eqb c dot) eqn:E.
  - apply Ascii.eqb_eq in E. subst c.
    rewrite Hs, Join_cons, <- Hs, IH. reflexivity.
  - rewrite Hs in *. destruct rest as [|next rest].
    + cbn in *. now subst.
    + rewrite Join_cons in *. rewrite <- IH. reflexivity.
Qed.

(** Outside its three guards [EncodeDomainName] neither fails nor panics:
    it writes the wire form of the name at the head of the buffer, leaves the
    rest as it was and returns the number of octets of the wire form. *)
Lemma EncodeDomainName_ok (buf : list byte) (name : string) :
  (String.length name <= 255)%nat ->
  (String.length name + 2 <= length buf)%nat ->
  Forall (fun label => (String.length label <= 63)%nat) (Split name) ->
  EncodeDomainName buf name =
  Done (wire_name name ++ skipn (String.length name + 2) buf,
        ((String.length name + 2)%nat, None)).
Proof.
  intros Hname Hbuf Hlabels. unfold EncodeDomainName.
  assert (H1 : (255 <? String.length name)%nat = false)
    by (apply Nat.ltb_ge; lia).
  assert (H2 : (length buf <? String.length name + 2)%nat = false)
    by (apply Nat.ltb_ge; lia).
  rewrite H1, H2.
  pose proof (firstn_skipn (S (String.length name)) buf) as Hb.
  remember (firstn (S (String.length name)) buf) as room eqn:Er.
  remember (skipn (S (String.length name)) buf) as tail eqn:Et.
  assert (Hroom : length room = length (flat_map wire_label (Split name))).
  { subst room. rewrite length_firstn, wire_labels_length. lia. }
  assert (Htail : length tail = (length buf - S (String.length name))%nat).
  { subst tail. apply length_skipn. }
  destruct tail as [|old post]; [simpl in Htail; lia|].
  assert (Hpost : skipn (String.length name + 2) buf = post).
  { replace (String.length name + 2)%nat with (1 + S (String.length name))%nat
      by lia.
    rewrite <- skipn_skipn, <- Et. reflexivity. }
  rewrite Hpost, <- Hb.
  change (room ++ old :: post) with ([] ++ room ++ old :: post).
  change 0%nat with (length (@nil byte)).
  rewrite (encode_labels_frame _ _ _ _ Hlabels Hroom).
  cbn [bind app length Nat.add].
  rewrite Hroom, store_frame. cbn [bind].
  rewrite wire_labels_length.
  replace (String.length name + 2)%nat with (S (S (String.length name)))
    by lia.
  unfold wire_name. rewrite <- app_assoc. reflexivity.
Qed.

(** ** The name decoder *)

Lemma string_of_bytes (s : string) : string_of_list_byte (bytes s) = s.
Proof. apply string_of_list_byte_of_string. Qed.

Lemma decode_labels_wire (labels : list string) :
  forall fuel rest read acc,
    Forall valid_label labels ->
    (length labels < fuel)%nat ->
    decode_labels fuel (flat_map wire_label labels ++ x00 :: rest) read acc =
    (S (read + length (flat_map wire_label labels)), rev acc ++ labels, None).
Proof.
  induction labels as [|label labels IH]; intros fuel rest read acc Hv Hf.
  - destruct fuel; [simpl in Hf; lia|]. simpl.
    now rewrite Nat.add_0_r, app_nil_r.
  - inversion Hv as [|? ? [Hl1 Hl2] Hv']; subst.
    destruct fuel; [simpl in Hf; lia|]. simpl in Hf.
    cbn [flat_map wire_label app decode_labels].
    rewrite byte_of_nat_small by lia.
    assert (E1 : (String.length label =? 0)%nat = false)
      by (apply Nat.eqb_neq; lia).
    rewrite E1.
    rewrite <- app_assoc.
    assert (E2 : (length (bytes label ++ flat_map wire_label labels ++ x00 :: rest)
                    <? String.length label)%nat = false).
    { apply Nat.ltb_ge. rewrite length_app, bytes_length. lia. }
    rewrite E2.
    rewrite <- (bytes_length label).
    rewrite skipn_length_app, firstn_length_app, string_of_bytes.
    rewrite IH by (auto; lia).
    cbn [length rev]. rewrite length_app, <- app_assoc.
    do 2 f_equal. lia.
Qed.

Lemma Split_length (name : string) :
  (length (Split name) <= S (String.length name))%nat.
Proof.
  induction name as [|c name IH]; simpl; auto.
  destruct (Ascii.eqb c dot); simpl; [lia|].
  destruct (Split name); simpl in *; lia.
Qed.

Lemma DecodeDomainName_wire (name : string) (rest : list byte) :
  Forall valid_label (Split name) ->
  DecodeDomainName (wire_name name ++ rest) =
  ((String.length name + 2)%nat, name, None).
Proof.
  intros Hv. unfold DecodeDomainName, wire_name.
  rewrite <- app_assoc. cbn [app].
  rewrite decode_labels_wire; auto.
  - cbn [rev app Nat.add]. rewrite wire_labels_length, Join_Split.
    do 2 f_equal. lia.
  - rewrite length_app, wire_labels_length. simpl.
    pose proof (Split_length name). lia.
Qed.

Lemma Split_app_dot (a b : string) :
  Split (a ++ "." ++ b) = Split a ++ Split b.
Proof.
  induction a as [|c a IH]; [reflexivity|].
  cbn [String.append Split].
  change (a ++ String "." b)%string with (a ++ "." ++ b)%string.
  rewrite IH.
  destruct (Ascii.eqb c dot); [reflexivity|].
  destruct (Split_cons a) as (label & rest & Hs). rewrite Hs. reflexivity.
Qed.

Lemma has_empty_label_Split (name : string) :
  has_empty_label name -> In EmptyString (Split name).
Proof.
  intros [-> | [[b ->] | [[a ->] | (a & b & ->)]]].
  - now left.
  - now left.
  - replace (a ++ ".")%string with (a ++ "." ++ "")%string by reflexivity.
    rewrite Split_app_dot. apply in_or_app. right. now left.
  - change (a ++ ".." ++ b)%string with (a ++ "." ++ ("." ++ b))%string.
    rewrite Split_app_dot. apply in_or_app. right. now left.
Qed.

(** ** Claims on domain names *)

(** C3, as stated, fails: the name of 254 octets has an encoded form of 256
    octets, more than 255, and [EncodeDomainName] encodes it without any
    error. *)
Lemma C3_name_too_long_counterexample :
  (255 < encoded_length name254)%nat
  /\ EncodeDomainName (zeros 512) name254
     <> Done (zeros 512, (0%nat, Some NameTooLong))
  /\ EncodeDomainName (zeros 512) name254
     = Done (wire_name name254 ++ zeros 256, (256%nat, None)).
Proof.
  split; [vm_compute; lia|].
  split; [vm_compute; discriminate|].
  vm_compute. reflexivity.
Qed.

(** C3, amended: the encoded name has [len(name) + 2] octets;
    [EncodeDomainName] fails with NameTooLong whenever the dotted name itself
    has more than 255 octets (an encoded name of more than 257), and
    otherwise with BufferTooSmall whenever the buffer is shorter than the
    encoded name; both checks come before any write, so the buffer is
    unchanged and 0 is returned. *)
Theorem C3_name_guards (buf : list byte) (name : string) :
  encoded_length name = (String.length name + 2)%nat
  /\ ((257 < encoded_length name)%nat ->
      EncodeDomainName buf name = Done (buf, (0%nat, Some NameTooLong)))
  /\ ((encoded_length name <= 257)%nat ->
      (length buf < encoded_length name)%nat ->
      EncodeDomainName buf name = Done (buf, (0%nat, Some BufferTooSmall))).
Proof.
  pose proof (encoded_length_eq name) as E. rewrite E.
  split; [reflexivity|]. unfold EncodeDomainName. split.
  - intros H. apply Nat.ltb_lt in H.
    replace (255 <? String.length name)%nat with true
      by (symmetry; apply Nat.ltb_lt; apply Nat.ltb_lt in H; lia).
    reflexivity.
  - intros H1 H2.
    replace (255 <? String.length name)%nat with false
      by (symmetry; apply Nat.ltb_ge; lia).
    replace (length buf <? String.length name + 2)%nat with true
      by (symmetry; apply Nat.ltb_lt; lia).
    reflexivity.
Qed.

Lemma C3_name_guards_witness :
  EncodeDomainName [x07] (letters 256) = Done ([x07], (0%nat, Some NameTooLong))
  /\ EncodeDomainName [x07] "in" = Done ([x07], (0%nat, Some BufferTooSmall)).
Proof.
  split.
  - apply (proj1 (proj2 (C3_name_guards [x07] (letters 256)))).
    vm_compute. lia.
  - apply (proj2 (proj2 (C3_name_guards [x07] "in"%string))).
    + vm_compute. lia.
    + vm_compute. lia.
Defined.

(** C4: for every name of at most 255 octets whose labels have between 1 and
    63 octets, and every buffer with room for it, [EncodeDomainName] succeeds
    and the name decoder, run on what was written, reads the same number of
    octets and returns the name. *)
Theorem C4_name_roundtrip (buf : list byte) (name : string) :
  (String.length name <= 255)%nat ->
  Forall valid_label (Split name) ->
  (String.length name + 2 <= length buf)%nat ->
  exists out n,
    EncodeDomainName buf name = Done (out, (n, None))
    /\ DecodeDomainName out = (n, name, None)
    /\ DecodeDomainName (firstn n out) = (n, name, None).
Proof.
  intros Hname Hv Hbuf.
  exists (wire_name name ++ skipn (String.length name + 2) buf),
         (String.length name + 2)%nat.
  split; [|split].
  - apply EncodeDomainName_ok; auto.
    eapply Forall_impl; [|exact Hv]. unfold valid_label. intros; lia.
  - now apply DecodeDomainName_wire.
  - rewrite <- encoded_length_eq, <- wire_name_length, firstn_length_app.
    rewrite <- (app_nil_r (wire_name name)) at 1.
    rewrite wire_name_length, encoded_length_eq.
    now apply DecodeDomainName_wire.
Qed.

Lemma C4_name_roundtrip_witness :
  exists out n,
    EncodeDomainName (zeros 512) "kausm.in" = Done (out, (n, None))
    /\ DecodeDomainName out = (n, "kausm.in"%string, None)
    /\ DecodeDomainName (firstn n out) = (n, "kausm.in"%string, None).
Proof.
  apply (C4_name_roundtrip (zeros 512) "kausm.in").
  - simpl. lia.
  - repeat (constructor; [unfold valid_label; simpl; lia|]). constructor.
  - simpl. lia.
Defined.

(** C10, as stated, fails: a name with a leading dot, hence an empty label,
    followed by a label of 64 octets is not encoded with success, in a
    buffer of any size: [EncodeDomainName] writes the octet 00 of the empty
    label and returns the error of the label that is too long. *)
Lemma C10_long_label_counterexample :
  has_empty_label ("." ++ letters 64)
  /\ EncodeDomainName (zeros 512) ("." ++ letters 64)
     = Done (zeros 512, (1%nat, Some LabelTooLong))
  /\ ~ (exists out n,
          EncodeDomainName (zeros 512) ("." ++ letters 64)
          = Done (out, (n, None))).
Proof.
  assert (H : EncodeDomainName (zeros 512) ("." ++ letters 64)
              = Done (zeros 512, (1%nat, Some LabelTooLong)))
    by (vm_compute; reflexivity).
  split; [right; left; exists (letters 64); reflexivity|].
  split; [exact H|].
  intros (out & n & H'). rewrite H in H'. discriminate H'.
Qed.

(** C10, amended: [EncodeDomainName] has no lower bound on the length of a
    label. The empty name in a buffer of at least 2 octets gives 2 octets
    written, 00 00; and a name with an empty label (the empty name, a
    leading, a trailing or a doubled dot) that passes the three checks of
    the function (name of at most 255 octets, labels of at most 63, room in
    the buffer) is encoded without error, every empty label as the single
    octet 00. *)
Theorem C10_empty_labels_encoded :
  (forall buf,
      (2 <= length buf)%nat ->
      EncodeDomainName buf "" = Done ([x00; x00] ++ skipn 2 buf, (2%nat, None)))
  /\ (forall buf name,
         has_empty_label name ->
         (String.length name <= 255)%nat ->
         Forall (fun label => (String.length label <= 63)%nat) (Split name) ->
         (String.length name + 2 <= length buf)%nat ->
         In EmptyString (Split name)
         /\ wire_label "" = [x00]
         /\ EncodeDomainName buf name =
            Done (flat_map wire_label (Split name) ++ [x00]
                    ++ skipn (String.length name + 2) buf,
                  ((String.length name + 2)%nat, None))).
Proof.
  split.
  - intros buf Hbuf.
    rewrite (EncodeDomainName_ok buf "")
      by first [simpl; lia | repeat constructor].
    reflexivity.
  - intros buf name He Hname Hlabels Hbuf.
    split; [now apply has_empty_label_Split|].
    split; [reflexivity|].
    rewrite (EncodeDomainName_ok buf name) by auto.
    unfold wire_name. now rewrite <- app_assoc.
Qed.

Lemma C10_empty_labels_encoded_witness :
  EncodeDomainName (zeros 2) "" = Done ([x00; x00] ++ skipn 2 (zeros 2), (2%nat, None))
  /\ EncodeDomainName (zeros 8) "a..b." =
     Done ([x01; x61; x00; x01; x62; x00; x00; x00], (7%nat, None)).
Proof.
  split.
  - apply (proj1 C10_empty_labels_encoded (zeros 2)). simpl. lia.
  - apply (proj2 C10_empty_labels_encoded (zeros 8) "a..b."%string).
    + right. right. left. exists "a..b"%string. reflexivity.
    + simpl. lia.
    + repeat (constructor; [simpl; lia|]). constructor.
    + simpl. lia.
Defined.

(** ** Claims on headers *)

(** C2: for every header whose opcode and response code are in the
    enumerations (and whose ID and counts are 16-bit values), [Encode] writes
    12 octets that [ReadFrom] decodes to the same header, field by field,
    whatever the header it decodes into held before; and the query header
    with ID 42, recursion desired and one question is encoded as
    00 2a 01 00 00 01 00 00 00 00 00 00. *)
Theorem C2_header_roundtrip :
  (forall h h0 buf,
      valid_header h ->
      length buf = 12%nat ->
      exists out,
        DNSHeader_Encode h buf = Done (out, (12%nat, None))
        /\ length out = 12%nat
        /\ ReadFrom h0 out = Done (h, None))
  /\ DNSHeader_Encode testQueryHeader (zeros 12)
     = Done ([x00; x2a; x01; x00; x00; x01; x00; x00; x00; x00; x00; x00],
             (12%nat, None)).
Proof.
  split; [|reflexivity].
  intros h h0 buf Hv Hlen.
  exists (header_bytes h ++ skipn 12 buf). split; [|split].
  - apply DNSHeader_Encode_ok. lia.
  - rewrite length_app, length_skipn, Hlen. reflexivity.
  - now apply ReadFrom_header_bytes.
Qed.

Lemma C2_header_roundtrip_witness :
  exists out,
    DNSHeader_Encode testQueryHeader (zeros 12) = Done (out, (12%nat, None))
    /\ length out = 12%nat
    /\ ReadFrom zeroHeader out = Done (testQueryHeader, None).
Proof.
  apply (proj1 C2_header_roundtrip testQueryHeader zeroHeader (zeros 12)).
  - unfold valid_header, testQueryHeader. simpl.
    repeat split; try lia; auto.
  - reflexivity.
Defined.

(** C9: [ReadFrom] is not atomic on failure. A 12-octet input with opcode 15
    gives the invalid-opcode error after the ID and the message type of the
    header have been assigned; an input that fails on the response code only
    gives its error after the ID, the message type, the opcode and the four
    flags have been assigned, the four counts being left as they were. *)
Theorem C9_ReadFrom_not_atomic :
  (exists buf h h' n,
      length buf = 12%nat
      /\ ReadFrom h buf = Done (h', Some (InvalidOpCode n))
      /\ ID h' <> ID h /\ Type_ h' <> Type_ h)
  /\ (exists buf h h' n,
         length buf = 12%nat
         /\ ReadFrom h buf = Done (h', Some (InvalidResponseCode n))
         /\ ID h' <> ID h /\ Type_ h' <> Type_ h /\ OpCode h' <> OpCode h
         /\ IsAuthoritative h' <> IsAuthoritative h
         /\ IsTruncated h' <> IsTruncated h
         /\ RecursionDesired h' <> RecursionDesired h
         /\ RecursionAvailable h' <> RecursionAvailable h
         /\ QuestionsCount h' = QuestionsCount h
         /\ AnswersCount h' = AnswersCount h
         /\ NameserversCount h' = NameserversCount h
         /\ AdditionalRecordsCount h' = AdditionalRecordsCount h).
Proof.
  split.
  - exists [x12; x34; xf8; x00; x00; x01; x00; x00; x00; x00; x00; x00],
           zeroHeader.
    eexists. eexists. split; [reflexivity|].
    split; [vm_compute; reflexivity|].
    split; vm_compute; discriminate.
  - exists [x12; x34; x8f; x8f; x00; x01; x00; x02; x00; x03; x00; x04],
           (mkHeader 0 false StatusOp false false false false 0 7 7 7 7).
    eexists. eexists. split; [reflexivity|].
    split; [vm_compute; reflexivity|].
    repeat split; try reflexivity; vm_compute; discriminate.
Qed.

(** ** Claims on resource records and lookups *)

(** C1, on the code: for the record of [TestEncodeRR] and every buffer of at
    least 32 octets, [Encode] writes the 18 octets of the name and the 14
    octets 00 01 00 01 00 00 10 68 00 04 2a 45 ff 01, but the count it
    returns is 28, the 4 octets of the value left out, where the claim (and
    the test) has 32. *)
Theorem C1_rr_encode_returns_28 (buf : list byte) :
  (32 <= length buf)%nat ->
  ResourceRecord_Encode testRR buf =
  Done (wire_name "testing.kausm.in"
          ++ [x00; x01; x00; x01; x00; x00; x10; x68; x00; x04;
              x2a; x45; xff; x01]
          ++ skipn 32 buf,
        (28%nat, None))
  /\ length (wire_name "testing.kausm.in") = 18%nat.
Proof.
  intros Hlen. split; [|reflexivity].
  do 32 (destruct buf as [|? buf]; [simpl in Hlen; lia|]).
  vm_compute. reflexivity.
Qed.

Lemma C1_rr_encode_returns_28_witness :
  ResourceRecord_Encode testRR (zeros 512) =
  Done (wire_name "testing.kausm.in"
          ++ [x00; x01; x00; x01; x00; x00; x10; x68; x00; x04;
              x2a; x45; xff; x01]
          ++ skipn 32 (zeros 512),
        (28%nat, None))
  /\ length (wire_name "testing.kausm.in") = 18%nat.
Proof.
  apply (C1_rr_encode_returns_28 (zeros 512)). simpl. lia.
Defined.

Lemma QTYPE_eqb_eq (a b : QTYPE) : QTYPE_eqb a b = true <-> a = b.
Proof.
  split.
  - destruct a, b; simpl; intros H; try reflexivity; discriminate H.
  - intros ->. now destruct b.
Qed.

Lemma Byte_eqb_eq (a b : byte) : Byte.eqb a b = true <-> a = b.
Proof. split; [apply Byte.byte_dec_bl | apply Byte.byte_dec_lb]. Qed.

Lemma QCLASS_eqb_eq (a b : QCLASS) : QCLASS_eqb a b = true <-> a = b.
Proof.
  destruct a as [|addr Class c0 c1 Meaning],
           b as [|addr' Class' c0' c1' Meaning']; cbn [QCLASS_eqb];
    try (split; [reflexivity || discriminate | reflexivity || discriminate]).
  rewrite !andb_true_iff, Nat.eqb_eq, !String.eqb_eq, !Byte_eqb_eq.
  split.
  - intros [[[[-> ->] ->] ->] ->]. reflexivity.
  - intros H. injection H as -> -> -> -> ->. auto.
Qed.

Lemma record_matches_test (ToLower : string -> string) (recordType : QTYPE)
  (recordClass : QCLASS) (name : string) (r : ResourceRecord) :
  QTYPE_eqb (rr_Type r) recordType && QCLASS_eqb (rr_Class r) recordClass
  && String.eqb (ToLower (rr_Name r)) (ToLower name) = true
  <-> record_matches ToLower recordType recordClass name r.
Proof.
  unfold record_matches.
  rewrite !andb_true_iff, QTYPE_eqb_eq, QCLASS_eqb_eq, String.eqb_eq.
  tauto.
Qed.

(** The scan of a table for the first element that passes a test. *)
Lemma find_first {A : Type} (test : A -> bool) (P : A -> Prop)
  (table : list A) :
  (forall x, test x = true <-> P x) ->
  match find test table with
  | Some x =>
      exists before after,
        table = before ++ x :: after
        /\ P x
        /\ Forall (fun y => ~ P y) before
  | None => Forall (fun y => ~ P y) table
  end.
Proof.
  intros Htest.
  induction table as [|x table IH]; cbn [find].
  - constructor.
  - destruct (test x) eqn:E.
    + exists [], table.
      split; [reflexivity | split; [now apply Htest | constructor]].
    + assert (Hx : ~ P x).
      { intros H. apply Htest in H. congruence. }
      destruct (find test table) as [x'|].
      * destruct IH as (before & after & -> & Hm & Hb).
        exists (x :: before), after.
        split; [reflexivity | split; [assumption | now constructor]].
      * now constructor.
Qed.

(** The class is compared as a pointer: asked for the record of the table
    by another class descriptor, were it one with the very fields of
    [ClassIN], [LookupRecords] returns nothing. *)
Lemma LookupRecords_class_identity (addr : nat) :
  LookupRecords ToLowerASCII defaultServer TypeA ClassIN "test.kausm.in"
  = Some record1
  /\ LookupRecords ToLowerASCII defaultServer TypeA
       (ClassAt addr "IN" x00 x01 "The Internet!") "test.kausm.in"
     = None.
Proof. split; reflexivity. Qed.

(** C8: [LookupRecords] returns the first record of the table, in table
    order, whose type and class are the queried ones and whose lower-cased
    name is the lower-cased queried name: the records before it do not match;
    it returns one record at most, and none exactly when no record of the
    table matches. *)
Theorem C8_LookupRecords_first_match (ToLower : string -> string)
  (srv : DNSServer) (recordType : QTYPE) (recordClass : QCLASS)
  (name : string) :
  match LookupRecords ToLower srv recordType recordClass name with
  | Some r =>
      exists before after,
        records srv = before ++ r :: after
        /\ record_matches ToLower recordType recordClass name r
        /\ Forall (fun r' =>
                     ~ record_matches ToLower recordType recordClass name r')
                  before
  | None =>
      Forall (fun r' => ~ record_matches ToLower recordType recordClass name r')
             (records srv)
  end.
Proof.
  unfold LookupRecords. apply find_first.
  intros r. apply record_matches_test.
Qed.

(** ** The request handler *)

Lemma slice_prefix (a b : list byte) : slice (a ++ b) 0 (length a) = Done a.
Proof.
  unfold slice. cbn [Nat.leb andb].
  replace (length a <=? length (a ++ b))%nat with true
    by (symmetry; apply Nat.leb_le; rewrite length_app; lia).
  rewrite Nat.sub_0_r. cbn [skipn]. now rewrite firstn_length_app.
Qed.

Lemma zeros_length (n : nat) : length (zeros n) = n.
Proof. apply repeat_length. Qed.

(** A reply without questions and records is the header alone, with the
    four counts at zero. *)
Lemma RespondToUDP_empty (WriteTo : list byte -> option error)
  (headers : DNSHeader) :
  let h :=
    set_AdditionalRecordsCount
      (set_NameserversCount
         (set_AnswersCount (set_QuestionsCount headers 0) 0) 0) 0 in
  exists r,
    RespondToUDP WriteTo headers [] [] [] [] = Done r
    /\ r_headers r = h
    /\ r_sent r = [header_bytes h]
    /\ r_bytesWritten r = 12%nat.
Proof.
  intros h. unfold RespondToUDP.
  cbn [length Z.of_nat]. change (uint16 0) with 0. fold h.
  rewrite DNSHeader_Encode_ok by (rewrite zeros_length; lia).
  cbn [bind encode_each].
  change 12%nat with (length (header_bytes h)) at 2.
  rewrite slice_prefix. cbn [bind].
  destruct (WriteTo (header_bytes h)); eexists; repeat split.
Qed.

(** [setDefaultResponseHeaders] makes the header a response before
    [handleUDPPacket] tests whether it is a query: the test never passes, and
    every request whose header decodes is answered NotImplemented, by a
    header alone. *)
Lemma handleUDPPacket_NotImplemented (ToLower : string -> string)
  (WriteTo : list byte -> option error) (srv : DNSServer)
  (buf : list byte) (h : DNSHeader) :
  ReadFrom zeroHeader buf = Done (h, None) ->
  handleUDPPacket ToLower WriteTo srv buf
  = Done [header_bytes (notImplementedHeader h)].
Proof.
  intros Hread. unfold handleUDPPacket. rewrite Hread. cbn [bind].
  cbn [setDefaultResponseHeaders set_Type set_RecursionAvailable
         set_IsTruncated set_IsAuthoritative Type_ Bool.eqb QRQuery
         QRResponse negb orb].
  match goal with
  | |- context [RespondToUDP WriteTo ?hd [] [] [] []] =>
      destruct (RespondToUDP_empty WriteTo hd) as (r & Hr & _ & Hsent & _)
  end.
  rewrite Hr. cbn [bind]. rewrite Hsent. reflexivity.
Qed.

Lemma GetOpCodeFromInt_valid (n op : Z) :
  GetOpCodeFromInt n = (op, None) ->
  op = QueryOp \/ op = IQueryOp \/ op = StatusOp.
Proof.
  unfold GetOpCodeFromInt, opCodeMap. cbn [map_get].
  repeat match goal with
         | |- context [if ?c then _ else _] => destruct c
         end;
    intros H; inversion H; auto.
Qed.

Lemma GetResponseCodeFromInt_valid (n rc : Z) :
  GetResponseCodeFromInt n = (rc, None) ->
  rc = NoError \/ rc = FormatError \/ rc = ServerFailure \/ rc = NameError
  \/ rc = NotImplemented \/ rc = Refused.
Proof.
  unfold GetResponseCodeFromInt, responseCodeMap. cbn [map_get].
  repeat match goal with
         | |- context [if ?c then _ else _] => destruct c
         end;
    intros H; inversion H; auto 10.
Qed.

Lemma be16_range (b0 b1 : byte) :
  0 <= Z.lor (Z_of_byte b1) (Z.shiftl (Z_of_byte b0) 8) < 65536.
Proof.
  pose proof (Z_of_byte_range b0). pose proof (Z_of_byte_range b1).
  rewrite lor_low_high by lia. lia.
Qed.

(** A header that [ReadFrom] decodes without error is a valid one, whatever
    the header held before. *)
Lemma ReadFrom_valid (h0 h : DNSHeader) (buf : list byte) :
  ReadFrom h0 buf = Done (h, None) -> valid_header h.
Proof.
  unfold ReadFrom, suffix. intros H.
  destruct buf as [|b0 [|b1 [|b2 [|b3 buf]]]];
    cbn [length Nat.leb Nat.div Nat.divmod fst Nat.add skipn bind Uint16] in H;
    try discriminate H.
  destruct (parseOpCode _) as [op [e|]] eqn:Eop in H; [discriminate H|].
  destruct (parseRCode _) as [rc [e|]] eqn:Erc in H; [discriminate H|].
  destruct buf as [|b4 [|b5 [|b6 [|b7 [|b8 [|b9 [|b10 [|b11 buf]]]]]]]];
    cbn [length Nat.leb Nat.div Nat.divmod fst Nat.add skipn bind Uint16] in H;
    try discriminate H.
  injection H as <-.
  unfold valid_header.
  cbn [ID OpCode ResponseCode QuestionsCount AnswersCount NameserversCount
         AdditionalRecordsCount set_ID set_Type set_OpCode set_IsAuthoritative
         set_IsTruncated set_RecursionDesired set_RecursionAvailable
         set_ResponseCode set_QuestionsCount set_AnswersCount
         set_NameserversCount set_AdditionalRecordsCount].
  repeat split; try apply be16_range.
  - unfold parseOpCode in Eop. now apply GetOpCodeFromInt_valid in Eop.
  - unfold parseRCode in Erc. now apply GetResponseCodeFromInt_valid in Erc.
Qed.

(** C6: a request whose header decodes and whose message type is not Query,
    or whose opcode is not the standard Query, is answered by exactly one
    datagram of 12 octets, a header alone: it carries the ID of the request,
    the response code NotImplemented and four counts at zero, so no question
    is echoed and there is no answer, whatever follows the header in the
    request. *)
Theorem C6_unsupported_NotImplemented (ToLower : string -> string)
  (WriteTo : list byte -> option error) (srv : DNSServer)
  (buf : list byte) (h : DNSHeader) :
  ReadFrom zeroHeader buf = Done (h, None) ->
  Type_ h <> QRQuery \/ OpCode h <> QueryOp ->
  exists resp h',
    handleUDPPacket ToLower WriteTo srv buf = Done [resp]
    /\ length resp = 12%nat
    /\ ReadFrom zeroHeader resp = Done (h', None)
    /\ ID h' = ID h
    /\ Type_ h' = QRResponse
    /\ ResponseCode h' = NotImplemented
    /\ QuestionsCount h' = 0
    /\ AnswersCount h' = 0
    /\ NameserversCount h' = 0
    /\ AdditionalRecordsCount h' = 0.
Proof.
  intros Hread _.
  exists (header_bytes (notImplementedHeader h)), (notImplementedHeader h).
  split; [now apply handleUDPPacket_NotImplemented|].
  split; [reflexivity|].
  split; [|repeat split].
  rewrite <- (app_nil_r (header_bytes _)).
  apply ReadFrom_header_bytes.
  destruct (ReadFrom_valid _ _ _ Hread) as (Hid & Hop & _).
  unfold valid_header, notImplementedHeader.
  cbn [ID OpCode ResponseCode QuestionsCount AnswersCount NameserversCount
         AdditionalRecordsCount].
  repeat split; auto 10; lia.
Qed.

Lemma C6_unsupported_NotImplemented_witness :
  exists resp h',
    handleUDPPacket ToLowerASCII (fun _ => None) defaultServer
      ([x00; x2a; x08; x00; x00; x01; x00; x00; x00; x00; x00; x00]
         ++ wire_name "kausm.in" ++ [x00; x01; x00; x01])
    = Done [resp]
    /\ length resp = 12%nat
    /\ ReadFrom zeroHeader resp = Done (h', None)
    /\ ID h' = 42
    /\ Type_ h' = QRResponse
    /\ ResponseCode h' = NotImplemented
    /\ QuestionsCount h' = 0
    /\ AnswersCount h' = 0
    /\ NameserversCount h' = 0
    /\ AdditionalRecordsCount h' = 0.
Proof.
  apply (C6_unsupported_NotImplemented ToLowerASCII (fun _ => None)
           defaultServer _
           (mkHeader 42 QRQuery IQueryOp false false false false NoError
              1 0 0 0)).
  - vm_compute. reflexivity.
  - right. vm_compute. discriminate.
Defined.

(** C7, on the code: the standard query for nosuch.kausm.in, A, IN reaches a
    server that is authoritative for the name and has no record for it
    ([GetAnswers] gives no answer and the authoritative flag), yet the reply
    of [handleUDPPacket] is the 12-octet header with response code
    NotImplemented, not NameError: the question loop that sets NameError is
    never reached. *)
Theorem C7_authoritative_miss_gets_NotImplemented
  (WriteTo : list byte -> option error) :
  ReadFrom zeroHeader queryNoSuch = Done (testQueryHeader, None)
  /\ ReadQuestionFrom (skipn 12 queryNoSuch)
     = Done (21%nat, Some (mkQuestion "nosuch.kausm.in" TypeA ClassIN), None)
  /\ GetAnswers ToLowerASCII defaultServer
       (mkQuestion "nosuch.kausm.in" TypeA ClassIN)
     = ([], [], [], true)
  /\ handleUDPPacket ToLowerASCII WriteTo defaultServer queryNoSuch
     = Done [[x00; x2a; x81; x04; x00; x00; x00; x00; x00; x00; x00; x00]]
  /\ ReadFrom zeroHeader
       [x00; x2a; x81; x04; x00; x00; x00; x00; x00; x00; x00; x00]
     = Done (notImplementedHeader testQueryHeader, None)
  /\ ResponseCode (notImplementedHeader testQueryHeader) = NotImplemented
  /\ NotImplemented <> NameError.
Proof.
  assert (Hread : ReadFrom zeroHeader queryNoSuch = Done (testQueryHeader, None))
    by (vm_compute; reflexivity).
  split; [exact Hread|].
  split; [vm_compute; reflexivity|].
  split; [vm_compute; reflexivity|].
  split.
  { rewrite (handleUDPPacket_NotImplemented _ _ _ _ _ Hread). reflexivity. }
  split; [vm_compute; reflexivity|].
  split; [reflexivity | discriminate].
Qed.

(** The table of the default server: the A record, then the SOA record. *)
Lemma defaultServer_records :
  exists soa,
    records defaultServer = [record1; mkRR "kausm.in" TypeSOA ClassIN 600 soa].
Proof.
  eexists. vm_compute. reflexivity.
Qed.


(** C5, on the code: a reply with the question test.kausm.in A IN and the A
    record of the table as its answer. The two counts are set to 1 and the
    datagram handed to the connection is the first [bytesWritten] = 56 octets
    of the buffer; but 60 octets were encoded: the 4 octets of the value of
    the record lie in the buffer after the 56th and are not sent, because
    [ResourceRecord.Encode] does not count them. *)
Theorem C5_datagram_misses_value (WriteTo : list byte -> option error) :
  exists r,
    RespondToUDP WriteTo zeroHeader
      [mkQuestion "test.kausm.in" TypeA ClassIN] [record1] [] [] = Done r
    /\ QuestionsCount (r_headers r) = 1
    /\ AnswersCount (r_headers r) = 1
    /\ NameserversCount (r_headers r) = 0
    /\ AdditionalRecordsCount (r_headers r) = 0
    /\ r_bytesWritten r = 56%nat
    /\ r_sent r = [firstn 56 (r_buf r)]
    /\ firstn 4 (skipn 56 (r_buf r)) = rr_Value record1
    /\ rr_Value record1 = [x86; xd1; x94; x32].
Proof.
  remember (RespondToUDP WriteTo zeroHeader
              [mkQuestion "test.kausm.in" TypeA ClassIN] [record1] [] [])
    as res eqn:E.
  vm_compute in E.
  destruct (WriteTo _) in E; subst res; eexists;
    (split; [reflexivity|]); vm_compute; repeat split.
Qed.

(** ** More on domain names *)

(** The label loop, label by label: the labels that fit are written into
    [room] and the loop goes on with the rest. *)
Lemma encode_labels_app (pre rest : list string) :
  forall P room Q,
    Forall (fun label => (String.length label <= 63)%nat) pre ->
    length room = length (flat_map wire_label pre) ->
    encode_labels (pre ++ rest) (P ++ room ++ Q) (length P) =
    encode_labels rest (P ++ flat_map wire_label pre ++ Q)
      (length P + length room).
Proof.
  induction pre as [|label pre IH]; intros P room Q Hall Hlen.
  - destruct room; [|discriminate]. cbn [app flat_map length].
    now rewrite Nat.add_0_r.
  - inversion Hall as [|? ? Hl Hpre]; subst.
    cbn [flat_map] in Hlen. rewrite length_app in Hlen.
    unfold wire_label in Hlen at 1. cbn [length] in Hlen.
    rewrite bytes_length in Hlen.
    destruct room as [|old room]; [discriminate|].
    injection Hlen as Hlen.
    cbn [app encode_labels].
    assert (Hlt : (63 <? String.length label)%nat = false)
      by (apply Nat.ltb_ge; lia).
    rewrite Hlt, store_frame. cbn [bind].
    pose proof (firstn_skipn (String.length label) room) as Hroom.
    remember (firstn (String.length label) room) as mid eqn:Em.
    remember (skipn (String.length label) room) as room' eqn:Er.
    assert (Hmid : length mid = String.length label).
    { subst mid. rewrite length_firstn. lia. }
    assert (Hroom' : length room' = length (flat_map wire_label pre)).
    { subst room'. rewrite length_skipn. lia. }
    rewrite <- Hroom.
    replace (P ++ byte_of_nat (String.length label) :: (mid ++ room') ++ Q)
      with ((P ++ [byte_of_nat (String.length label)]) ++ mid ++ room' ++ Q)
      by (rewrite <- !app_assoc; reflexivity).
    rewrite on_slice_frame by (rewrite ?length_app; simpl; lia).
    rewrite copy_exact by (rewrite bytes_length; exact Hmid).
    cbn [bind].
    replace (S (length P) + length (bytes label))%nat
      with (length (P ++ wire_label label))
      by (unfold wire_label; rewrite !length_app; simpl; lia).
    replace ((P ++ [byte_of_nat (String.length label)]) ++ bytes label ++ room' ++ Q)
      with ((P ++ wire_label label) ++ room' ++ Q)
      by (unfold wire_label; rewrite <- !app_assoc; reflexivity).
    rewrite (IH _ _ _ Hpre Hroom').
    f_equal.
    + cbn [flat_map]. rewrite <- !app_assoc. reflexivity.
    + unfold wire_label. rewrite !length_app. cbn [length].
      rewrite length_app, bytes_length. lia.
Qed.

Lemma first_long_label (labels : list string) :
  Forall (fun label => (String.length label <= 63)%nat) labels
  \/ exists pre bad post,
      labels = pre ++ bad :: post
      /\ Forall (fun label => (String.length label <= 63)%nat) pre
      /\ (63 < String.length bad)%nat.
Proof.
  induction labels as [|label labels IH]; [left; constructor|].
  destruct (Nat.le_gt_cases (String.length label) 63) as [Hle | Hgt].
  - destruct IH as [IH | (pre & bad & post & -> & Hpre & Hbad)].
    + left. now constructor.
    + right. exists (label :: pre), bad, post.
      split; [reflexivity | split; [now constructor | assumption]].
  - right. exists [], label, labels.
    split; [reflexivity | split; [constructor | assumption]].
Qed.

Lemma EncodeDomainName_long_label (buf : list byte) (name : string)
  (pre post : list string) (bad : string) :
  (String.length name <= 255)%nat ->
  (String.length name + 2 <= length buf)%nat ->
  Split name = pre ++ bad :: post ->
  Forall (fun label => (String.length label <= 63)%nat) pre ->
  (63 < String.length bad)%nat ->
  EncodeDomainName buf name =
  Done (flat_map wire_label pre
          ++ skipn (length (flat_map wire_label pre)) buf,
        (length (flat_map wire_label pre), Some LabelTooLong)).
Proof.
  intros Hname Hbuf Hsplit Hpre Hbad. unfold EncodeDomainName.
  replace (255 <? String.length name)%nat with false
    by (symmetry; apply Nat.ltb_ge; lia).
  replace (length buf <? String.length name + 2)%nat with false
    by (symmetry; apply Nat.ltb_ge; lia).
  pose proof (wire_labels_length name) as Hw.
  rewrite Hsplit, flat_map_app, length_app in Hw.
  set (k := length (flat_map wire_label pre)) in *.
  pose proof (firstn_skipn k buf) as Hb.
  assert (Hroom : length (firstn k buf) = k).
  { rewrite length_firstn. lia. }
  rewrite Hsplit, <- Hb.
  change (firstn k buf ++ skipn k buf)
    with ([] ++ firstn k buf ++ skipn k buf).
  change 0%nat with (length (@nil byte)).
  rewrite (encode_labels_app pre (bad :: post) [] _ _ Hpre Hroom).
  cbn [encode_labels].
  replace (63 <? String.length bad)%nat with true
    by (symmetry; apply Nat.ltb_lt; lia).
  cbn [bind app length Nat.add]. rewrite Hroom, Hb. reflexivity.
Qed.

(** Every call of [EncodeDomainName] returns: no index or slice bound is
    ever out of range. The buffer keeps its length, the count is within it,
    and there is no error exactly when the name passes the three checks. *)
Lemma EncodeDomainName_total (buf : list byte) (name : string) :
  exists out n err,
    EncodeDomainName buf name = Done (out, (n, err))
    /\ length out = length buf
    /\ (n <= length buf)%nat
    /\ (err = None <->
        encodable name /\ (String.length name + 2 <= length buf)%nat).
Proof.
  unfold encodable.
  destruct (Nat.le_gt_cases (String.length name) 255) as [Hname | Hname].
  2:{ exists buf, 0%nat, (Some NameTooLong). unfold EncodeDomainName.
      replace (255 <? String.length name)%nat with true
        by (symmetry; apply Nat.ltb_lt; lia).
      repeat split; try lia; try discriminate. }
  destruct (Nat.le_gt_cases (String.length name + 2) (length buf))
    as [Hbuf | Hbuf].
  2:{ exists buf, 0%nat, (Some BufferTooSmall). unfold EncodeDomainName.
      replace (255 <? String.length name)%nat with false
        by (symmetry; apply Nat.ltb_ge; lia).
      replace (length buf <? String.length name + 2)%nat with true
        by (symmetry; apply Nat.ltb_lt; lia).
      repeat split; try lia; try discriminate. }
  destruct (first_long_label (Split name))
    as [Hall | (pre & bad & post & Hsplit & Hpre & Hbad)].
  - rewrite (EncodeDomainName_ok buf name Hname Hbuf Hall).
    do 3 eexists. split; [reflexivity|].
    split; [|split; [lia | tauto]].
    rewrite length_app, wire_name_length, encoded_length_eq, length_skipn. lia.
  - rewrite (EncodeDomainName_long_label buf name pre post bad
               Hname Hbuf Hsplit Hpre Hbad).
    pose proof (wire_labels_length name) as Hw.
    rewrite Hsplit, flat_map_app, length_app in Hw.
    do 3 eexists. split; [reflexivity|].
    split; [|split; [lia|]].
    + rewrite length_app, length_skipn. lia.
    + split; [discriminate|]. intros [[_ Hall] _].
      rewrite Hsplit in Hall. apply Forall_app in Hall. destruct Hall as [_ Hall].
      inversion Hall; subst. lia.
Qed.

(** ** Records and questions on the wire *)

Lemma on_suffix_app {A : Type} (pre rest : list byte) (k : nat)
  (f : list byte -> run (list byte * A)) :
  on_suffix (pre ++ rest) (length pre + k) f =
  '(out, a) <- on_suffix rest k f ;; Done (pre ++ out, a).
Proof.
  unfold on_suffix. rewrite length_app.
  replace (length pre + k <=? length pre + length rest)%nat
    with (k <=? length rest)%nat.
  2:{ destruct (Nat.leb_spec k (length rest));
      symmetry; [apply Nat.leb_le | apply Nat.leb_gt]; lia. }
  destruct (k <=? length rest)%nat; [|reflexivity].
  rewrite skipn_app, firstn_app.
  replace (length pre + k - length pre)%nat with k by lia.
  rewrite skipn_all2, firstn_all2 by lia. cbn [app].
  destruct (f (skipn k rest)) as [[sub a]|]; cbn [bind]; [|reflexivity].
  now rewrite <- app_assoc.
Qed.

Lemma qtype_Value_two (t : QTYPE) : exists t0 t1, qtype_Value t = [t0; t1].
Proof. destruct t; do 2 eexists; reflexivity. Qed.

Lemma qclass_Value_two (c : QCLASS) : exists c0 c1, qclass_Value c = [c0; c1].
Proof. destruct c; do 2 eexists; reflexivity. Qed.

Lemma skipn_cons_tail {A : Type} (n : nat) (l tail : list A) (xs : list A) :
  skipn n l = xs ++ tail -> skipn (length xs + n) l = tail.
Proof.
  intros H. rewrite <- skipn_skipn, H. apply skipn_length_app.
Qed.

Ltac suffix_step :=
  rewrite <- ?Nat.add_assoc; cbn [Nat.add];
  rewrite on_suffix_app;
  cbn [on_suffix bind copy length Nat.leb Nat.min skipn firstn app
         PutUint32 PutUint16].

(** [ResourceRecord.Encode] with room for the name and the ten octets of
    type, class, TTL and value length: the count returned stops there, and
    as much of the value as the buffer holds is written after it. *)
Lemma ResourceRecord_Encode_ok (rr : ResourceRecord) (buf : list byte) :
  encodable (rr_Name rr) ->
  (String.length (rr_Name rr) + 12 <= length buf)%nat ->
  let n := (String.length (rr_Name rr) + 12)%nat in
  let k := Nat.min (length (rr_Value rr)) (length buf - n) in
  ResourceRecord_Encode rr buf =
  Done (wire_record_head rr ++ firstn k (rr_Value rr) ++ skipn (n + k) buf,
        (n, None)).
Proof.
  intros [Hname Hlabels] Hbuf n k. subst n k.
  destruct rr as [name ty cl ttl val].
  cbn [rr_Name rr_Type rr_Class rr_TTL rr_Value] in *.
  unfold ResourceRecord_Encode, wire_record_head.
  cbn [rr_Name rr_Type rr_Class rr_TTL rr_Value].
  rewrite EncodeDomainName_ok by (auto; lia). cbn [bind].
  destruct (qtype_Value_two ty) as (t0 & t1 & ->).
  destruct (qclass_Value_two cl) as (c0 & c1 & ->).
  pose proof (wire_name_length name) as HW.
  rewrite encoded_length_eq in HW.
  remember (wire_name name) as W eqn:EW.
  remember (skipn (String.length name + 2) buf) as X eqn:EX.
  assert (HX : length X = (length buf - (String.length name + 2))%nat)
    by (subst X; apply length_skipn).
  do 10 (destruct X as [|? X]; [cbn [length] in HX; lia|]).
  cbn [length] in HX.
  symmetry in EX.
  apply (skipn_cons_tail _ _ X [b; b0; b1; b2; b3; b4; b5; b6; b7; b8]) in EX.
  cbn [length Nat.add] in EX.
  match goal with |- _ = ?R => remember R as expected eqn:Ee end.
  replace (String.length name + 2)%nat with (length W + 0)%nat by lia.
  do 5 suffix_step.
  subst expected.
  unfold be32_bytes, be16_bytes. rewrite <- !app_assoc. cbn [app].
  assert (Hs : forall j,
             skipn (j + (10 + (String.length name + 2))) buf = skipn j X).
  { intros j. rewrite <- skipn_skipn. cbn [Nat.add]. now rewrite EX. }
  replace (length buf - (String.length name + 12))%nat with (length X) by lia.
  replace (String.length name + 12 + Nat.min (length val) (length X))%nat
    with (Nat.min (length val) (length X) + (10 + (String.length name + 2)))%nat
    by lia.
  rewrite Hs.
  replace (length W + 10)%nat with (String.length name + 12)%nat by lia.
  reflexivity.
Qed.

(** With room for the name but not for the ten octets after it,
    [ResourceRecord.Encode] does not return an error: [PutUint32] or
    [PutUint16] indexes past the end of the buffer. *)
Lemma ResourceRecord_Encode_short (rr : ResourceRecord) (buf : list byte) :
  encodable (rr_Name rr) ->
  (String.length (rr_Name rr) + 2 <= length buf)%nat ->
  (length buf < String.length (rr_Name rr) + 12)%nat ->
  ResourceRecord_Encode rr buf = Panic.
Proof.
  intros [Hname Hlabels] Hbuf Hshort.
  destruct rr as [name ty cl ttl val].
  cbn [rr_Name rr_Type rr_Class rr_TTL rr_Value] in *.
  unfold ResourceRecord_Encode.
  cbn [rr_Name rr_Type rr_Class rr_TTL rr_Value].
  rewrite EncodeDomainName_ok by (auto; lia). cbn [bind].
  destruct (qtype_Value_two ty) as (t0 & t1 & ->).
  destruct (qclass_Value_two cl) as (c0 & c1 & ->).
  pose proof (wire_name_length name) as HW.
  rewrite encoded_length_eq in HW.
  remember (wire_name name) as W eqn:EW.
  remember (skipn (String.length name + 2) buf) as X eqn:EX.
  assert (HX : (length X < 10)%nat)
    by (subst X; rewrite length_skipn; lia).
  clear EX.
  replace (String.length name + 2)%nat with (length W + 0)%nat by lia.
  do 10 (destruct X as [|? X]; [repeat suffix_step; reflexivity|]).
  cbn [length] in HX. lia.
Qed.

(** [Question.Encode] with room for the name and the four octets of type
    and class. *)
Lemma Question_Encode_ok (q : Question) (buf : list byte) :
  encodable (q_Name q) ->
  (String.length (q_Name q) + 6 <= length buf)%nat ->
  Question_Encode q buf =
  Done (wire_question q ++ skipn (String.length (q_Name q) + 6) buf,
        ((String.length (q_Name q) + 6)%nat, None)).
Proof.
  intros [Hname Hlabels] Hbuf.
  destruct q as [name ty cl]. cbn [q_Name q_Type q_Class] in *.
  unfold Question_Encode, wire_question. cbn [q_Name q_Type q_Class].
  rewrite EncodeDomainName_ok by (auto; lia). cbn [bind].
  destruct (qtype_Value_two ty) as (t0 & t1 & ->).
  destruct (qclass_Value_two cl) as (c0 & c1 & ->).
  pose proof (wire_name_length name) as HW.
  rewrite encoded_length_eq in HW.
  remember (wire_name name) as W eqn:EW.
  remember (skipn (String.length name + 2) buf) as X eqn:EX.
  assert (HX : length X = (length buf - (String.length name + 2))%nat)
    by (subst X; apply length_skipn).
  do 4 (destruct X as [|? X]; [cbn [length] in HX; lia|]).
  symmetry in EX.
  apply (skipn_cons_tail _ _ X [b; b0; b1; b2]) in EX.
  cbn [length Nat.add] in EX.
  replace (String.length name + 6)%nat
    with (S (S (S (S (String.length name + 2))))) by lia.
  rewrite EX.
  match goal with |- _ = ?R => remember R as expected eqn:Ee end.
  replace (String.length name + 2)%nat with (length W + 0)%nat by lia.
  do 2 suffix_step.
  subst expected. rewrite <- !app_assoc. cbn [app].
  do 3 f_equal. lia.
Qed.

(** With room for the name but for fewer than the four octets after it,
    [Question.Encode] reports no error: [copy] stops at the end of the
    buffer and the question is cut short. *)
Lemma Question_Encode_cut (q : Question) (buf : list byte) :
  encodable (q_Name q) ->
  (String.length (q_Name q) + 2 <= length buf)%nat ->
  (length buf < String.length (q_Name q) + 6)%nat ->
  Question_Encode q buf =
  Done (firstn (length buf) (wire_question q), (length buf, None)).
Proof.
  intros [Hname Hlabels] Hbuf Hshort.
  destruct q as [name ty cl]. cbn [q_Name q_Type q_Class] in *.
  unfold Question_Encode, wire_question. cbn [q_Name q_Type q_Class].
  rewrite EncodeDomainName_ok by (auto; lia). cbn [bind].
  destruct (qtype_Value_two ty) as (t0 & t1 & ->).
  destruct (qclass_Value_two cl) as (c0 & c1 & ->).
  pose proof (wire_name_length name) as HW.
  rewrite encoded_length_eq in HW.
  remember (wire_name name) as W eqn:EW.
  remember (skipn (String.length name + 2) buf) as X eqn:EX.
  assert (HX : length X = (length buf - (String.length name + 2))%nat)
    by (subst X; apply length_skipn).
  clear EX.
  assert (Hlen : length buf = (length W + length X)%nat) by lia.
  assert (HX4 : (length X < 4)%nat) by lia.
  rewrite Hlen. clear Hlen HX Hbuf.
  rewrite firstn_app_2.
  replace (String.length name + 2)%nat with (length W + 0)%nat by lia.
  do 4 (destruct X as [|? X];
        [do 2 suffix_step; cbn [length firstn app];
         rewrite <- ?Nat.add_assoc; reflexivity|]).
  cbn [length] in HX4. lia.
Qed.

(** ** The SOA payload *)

Lemma skipn_zeros (k n : nat) : skipn k (zeros (k + n)) = zeros n.
Proof.
  unfold zeros. rewrite repeat_app.
  rewrite <- (repeat_length x00 k) at 1. apply skipn_length_app.
Qed.

Lemma on_suffix_0 {A : Type} (buf : list byte)
  (f : list byte -> run (list byte * A)) :
  on_suffix buf 0 f = '(sub, a) <- f buf ;; Done (sub, a).
Proof. reflexivity. Qed.

Lemma EncodeDomainName_too_long (buf : list byte) (name : string) :
  (255 < String.length name)%nat ->
  EncodeDomainName buf name = Done (buf, (0%nat, Some NameTooLong)).
Proof.
  intros H. unfold EncodeDomainName.
  replace (255 <? String.length name)%nat with true
    by (symmetry; apply Nat.ltb_lt; lia).
  reflexivity.
Qed.

(** The buffer that [EncodeSOA] makes, of [len(mname) + len(rname) + 24]
    octets, is filled exactly: the two names, then the five integers. *)
Lemma EncodeSOA_ok (mname rname : string)
  (serial refresh retry expire minimum : Z) :
  encodable mname -> encodable rname ->
  EncodeSOA mname rname serial refresh retry expire minimum =
  Done (wire_name mname ++ wire_name rname
          ++ be32_bytes serial ++ be32_bytes refresh ++ be32_bytes retry
          ++ be32_bytes expire ++ be32_bytes minimum,
        None).
Proof.
  intros [Hm Hml] [Hr Hrl]. unfold EncodeSOA.
  rewrite on_suffix_0.
  rewrite EncodeDomainName_ok by (rewrite ?zeros_length; auto; lia).
  cbn [bind Nat.add].
  replace (String.length mname + String.length rname + 24)%nat
    with ((String.length mname + 2) + (String.length rname + 22))%nat by lia.
  rewrite skipn_zeros.
  pose proof (wire_name_length mname) as HWm.
  pose proof (wire_name_length rname) as HWr.
  rewrite encoded_length_eq in HWm, HWr.
  remember (wire_name mname) as Wm eqn:EWm.
  match goal with |- _ = ?R => remember R as expected eqn:Ee end.
  replace (String.length mname + 2)%nat with (length Wm + 0)%nat by lia.
  rewrite on_suffix_app, on_suffix_0.
  rewrite EncodeDomainName_ok by (rewrite ?zeros_length; auto; lia).
  cbn [bind].
  replace (String.length rname + 22)%nat
    with ((String.length rname + 2) + 20)%nat by lia.
  rewrite skipn_zeros.
  remember (wire_name rname) as Wr eqn:EWr.
  rewrite app_assoc.
  replace (length Wm + 0 + (String.length rname + 2))%nat
    with (length (Wm ++ Wr) + 0)%nat by (rewrite length_app; lia).
  cbn [zeros repeat].
  do 5 suffix_step.
  subst expected. unfold be32_bytes.
  rewrite <- !app_assoc. reflexivity.
Qed.

(** [EncodeSOA] returns on every input: it succeeds exactly when both names
    are accepted by [EncodeDomainName], and otherwise gives no payload and
    one of the two errors on names; its buffer is never too small. *)
Lemma EncodeSOA_total (mname rname : string)
  (serial refresh retry expire minimum : Z) :
  exists out err,
    EncodeSOA mname rname serial refresh retry expire minimum = Done (out, err)
    /\ (err = None <-> encodable mname /\ encodable rname)
    /\ (err <> None ->
        out = [] /\ (err = Some NameTooLong \/ err = Some LabelTooLong)).
Proof.
  assert (Hno : forall name, (255 < String.length name)%nat -> ~ encodable name)
    by (intros name H [H' _]; lia).
  assert (Hbad : forall name pre bad post,
             Split name = pre ++ bad :: post ->
             (63 < String.length bad)%nat -> ~ encodable name).
  { intros name pre bad post Hs Hb [_ Hall]. rewrite Hs in Hall.
    apply Forall_app in Hall. destruct Hall as [_ Hall].
    inversion Hall; subst. lia. }
  destruct (Nat.le_gt_cases (String.length mname) 255) as [Hm | Hm].
  2:{ unfold EncodeSOA. rewrite on_suffix_0.
      rewrite EncodeDomainName_too_long by lia. cbn [bind].
      do 2 eexists. split; [reflexivity|].
      split; [split; [discriminate | intros [H _]; now apply Hno in H]|].
      intros _. auto. }
  destruct (first_long_label (Split mname))
    as [Hml | (pre & bad & post & Hs & Hpre & Hb)].
  2:{ unfold EncodeSOA. rewrite on_suffix_0.
      rewrite (EncodeDomainName_long_label _ mname pre post bad)
        by (rewrite ?zeros_length; auto; lia).
      cbn [bind].
      do 2 eexists. split; [reflexivity|].
      split; [split; [discriminate | intros [H _]; exfalso; exact (Hbad _ _ _ _ Hs Hb H)]|].
      intros _. auto. }
  destruct (Nat.le_gt_cases (String.length rname) 255) as [Hr | Hr].
  2:{ unfold EncodeSOA. rewrite on_suffix_0.
      rewrite EncodeDomainName_ok by (rewrite ?zeros_length; auto; lia).
      cbn [bind Nat.add].
      pose proof (wire_name_length mname) as HWm.
      rewrite encoded_length_eq in HWm.
      replace (String.length mname + 2)%nat
        with (length (wire_name mname) + 0)%nat by lia.
      rewrite on_suffix_app, on_suffix_0.
      rewrite EncodeDomainName_too_long by lia. cbn [bind].
      do 2 eexists. split; [reflexivity|].
      split; [split; [discriminate | intros [_ H]; now apply Hno in H]|].
      intros _. auto. }
  destruct (first_long_label (Split rname))
    as [Hrl | (pre & bad & post & Hs & Hpre & Hb)].
  2:{ unfold EncodeSOA. rewrite on_suffix_0.
      rewrite EncodeDomainName_ok by (rewrite ?zeros_length; auto; lia).
      cbn [bind Nat.add].
      pose proof (wire_name_length mname) as HWm.
      rewrite encoded_length_eq in HWm.
      replace (String.length mname + 2)%nat
        with (length (wire_name mname) + 0)%nat by lia.
      rewrite on_suffix_app, on_suffix_0.
      rewrite (EncodeDomainName_long_label _ rname pre post bad)
        by (rewrite ?length_skipn, ?zeros_length; auto; lia).
      cbn [bind].
      do 2 eexists. split; [reflexivity|].
      split; [split; [discriminate | intros [_ H]; exfalso; exact (Hbad _ _ _ _ Hs Hb H)]|].
      intros _. auto. }
  rewrite EncodeSOA_ok by (split; assumption).
  do 2 eexists. split; [reflexivity|].
  split; [|intros H; now contradiction H].
  split; [intros _; repeat split; assumption | reflexivity].
Qed.

(** ** Type and class codes *)

Lemma byte_of_Z_of_byte (b : byte) : byte_of_Z (Z_of_byte b) = b.
Proof.
  unfold byte_of_Z. rewrite Z.mod_small by apply Z_of_byte_range.
  unfold Z_of_byte. rewrite N2Z.id, Byte.of_to_N. reflexivity.
Qed.

Lemma Z_of_byte_inj (a b : byte) : Z_of_byte a = Z_of_byte b -> a = b.
Proof.
  intros H. rewrite <- (byte_of_Z_of_byte a), <- (byte_of_Z_of_byte b).
  now rewrite H.
Qed.

Lemma be16_inv (b0 b1 : byte) (hi lo : Z) :
  0 <= hi < 256 -> 0 <= lo < 256 ->
  Z.lor (Z_of_byte b1) (Z.shiftl (Z_of_byte b0) 8) = lo + 256 * hi ->
  b0 = byte_of_Z hi /\ b1 = byte_of_Z lo.
Proof.
  intros Hhi Hlo H.
  pose proof (Z_of_byte_range b0). pose proof (Z_of_byte_range b1).
  rewrite lor_low_high in H by lia.
  assert (Z_of_byte b0 = hi) by lia. assert (Z_of_byte b1 = lo) by lia.
  subst hi lo. now rewrite !byte_of_Z_of_byte.
Qed.

Lemma bytesToQtype_Value (t : QTYPE) :
  bytesToQtype (qtype_Value t) = Done (Some t, None).
Proof. destruct t; reflexivity. Qed.

Lemma bytesToQtype_inv (b : list byte) (t : QTYPE) :
  bytesToQtype b = Done (Some t, None) -> b = qtype_Value t.
Proof.
  unfold bytesToQtype.
  destruct b as [|b0 [|b1 [|b2 b]]]; cbn [length Nat.eqb negb];
    try discriminate.
  cbn [Uint16 bind].
  set (code := Z.lor (Z_of_byte b1) (Z.shiftl (Z_of_byte b0) 8)).
  unfold uintToQtypeMap. cbn [map_get].
  repeat match goal with
         | |- context [if code =? ?k then _ else _] =>
             let E := fresh "E" in
             destruct (code =? k) eqn:E;
             [ apply Z.eqb_eq in E; unfold code in E;
               change k with (k + 256 * 0) in E;
               apply be16_inv in E; [|lia|lia];
               destruct E as [-> ->];
               intros H; injection H as <-; reflexivity
             | clear E ]
         end.
  discriminate.
Qed.

Lemma bytesToClass_inv (b : list byte) (c : QCLASS) :
  bytesToClass b = Done (Some c, None) -> c = ClassIN /\ b = [x00; x01].
Proof.
  unfold bytesToClass.
  destruct b as [|b0 [|b1 [|b2 b]]]; cbn [length Nat.eqb negb];
    try discriminate.
  cbn [Uint16 bind].
  destruct (Z.lor (Z_of_byte b1) (Z.shiftl (Z_of_byte b0) 8) =? 1) eqn:E;
    cbn [negb]; [|discriminate].
  intros H. injection H as <-. split; [reflexivity|].
  apply Z.eqb_eq in E. change 1 with (1 + 256 * 0) in E.
  apply be16_inv in E; [|lia|lia]. destruct E as [-> ->]. reflexivity.
Qed.

Lemma bytesToClass_other (b0 b1 : byte) :
  [b0; b1] <> [x00; x01] ->
  be16 b0 b1 <> 1
  /\ bytesToClass [b0; b1] = Done (None, Some (UnrecognizedClass (be16 b0 b1))).
Proof.
  intros Hne.
  assert (H1 : be16 b0 b1 <> 1).
  { intros E. apply Hne. unfold be16 in E. change 1 with (1 + 256 * 0) in E.
    apply be16_inv in E; [|lia|lia]. destruct E as [-> ->]. reflexivity. }
  split; [exact H1|].
  unfold bytesToClass. cbn [length Nat.eqb negb Uint16 bind]. fold (be16 b0 b1).
  apply Z.eqb_neq in H1. now rewrite H1.
Qed.

(** ** The flag octets, by enumeration *)

Lemma all_bytes_complete (b : byte) : In b all_bytes.
Proof.
  unfold all_bytes. apply in_map_iff. exists (Byte.to_nat b). split.
  - unfold byte_of_nat. rewrite <- (byte_of_Z_of_byte b) at 2.
    f_equal. unfold Z_of_byte. rewrite Byte.to_nat_via_N. lia.
  - apply in_seq. pose proof (Byte.to_nat_bounded b). lia.
Qed.

Lemma forall_bytes2_spec (P : byte -> byte -> bool) :
  forall_bytes2 P = true -> forall a b, P a b = true.
Proof.
  unfold forall_bytes2. intros H a b.
  rewrite forallb_forall in H. specialize (H a (all_bytes_complete a)).
  rewrite forallb_forall in H. exact (H b (all_bytes_complete b)).
Qed.

Lemma fields_check_all : forall_bytes2 fields_check = true.
Proof. vm_compute. reflexivity. Qed.

Lemma repack_check_all : forall_bytes2 repack_check = true.
Proof. vm_compute. reflexivity. Qed.

Lemma parse_fields (b2 b3 : byte) :
  parseOpCode (be16 b2 b3) = GetOpCodeFromInt (opcode_field b2)
  /\ parseRCode (be16 b2 b3) = GetResponseCodeFromInt (rcode_field b3).
Proof.
  pose proof (forall_bytes2_spec _ fields_check_all b2 b3) as H.
  unfold fields_check in H. apply andb_true_iff in H.
  destruct H as [H1 H2]. apply Z.eqb_eq in H1, H2.
  unfold parseOpCode, parseRCode. now rewrite H1, H2.
Qed.

Lemma opcode_field_range (b : byte) : 0 <= opcode_field b < 16.
Proof. unfold opcode_field. apply Z.mod_pos_bound. lia. Qed.

Lemma rcode_field_range (b : byte) : 0 <= rcode_field b < 16.
Proof. unfold rcode_field. apply Z.mod_pos_bound. lia. Qed.

Lemma GetOpCodeFromInt_cases (n : Z) :
  0 <= n < 16 ->
  GetOpCodeFromInt n =
  if n <=? 2 then (n, None) else (0, Some (InvalidOpCode n)).
Proof.
  intros Hn. rewrite <- (Z2Nat.id n) by lia.
  assert (Hk : (Z.to_nat n < 16)%nat) by lia.
  destruct (Z.to_nat n) as [|k]; [reflexivity|].
  do 15 (destruct k as [|k]; [reflexivity|]). lia.
Qed.

Lemma GetResponseCodeFromInt_cases (n : Z) :
  0 <= n < 16 ->
  GetResponseCodeFromInt n =
  if n <=? 5 then (n, None) else (0, Some (InvalidResponseCode n)).
Proof.
  intros Hn. rewrite <- (Z2Nat.id n) by lia.
  assert (Hk : (Z.to_nat n < 16)%nat) by lia.
  destruct (Z.to_nat n) as [|k]; [reflexivity|].
  do 15 (destruct k as [|k]; [reflexivity|]). lia.
Qed.

(** ** More on headers *)

Ltac read_head :=
  unfold ReadFrom, suffix;
  cbn [length Nat.leb Nat.div Nat.divmod fst Nat.add skipn bind Uint16];
  repeat match goal with
         | |- context [Z.lor (Z_of_byte ?lo) (Z.shiftl (Z_of_byte ?hi) 8)] =>
             change (Z.lor (Z_of_byte lo) (Z.shiftl (Z_of_byte hi) 8))
               with (be16 hi lo)
         end.

Lemma ReadFrom_bad_opcode (h0 : DNSHeader) (b0 b1 b2 b3 : byte)
  (rest : list byte) :
  2 < opcode_field b2 ->
  ReadFrom h0 (b0 :: b1 :: b2 :: b3 :: rest) =
  Done (set_OpCode
          (set_Type (set_ID h0 (be16 b0 b1)) (parseMsgType (be16 b2 b3))) 0,
        Some (InvalidOpCode (opcode_field b2))).
Proof.
  intros Hop. read_head.
  destruct (parse_fields b2 b3) as [-> _].
  rewrite GetOpCodeFromInt_cases by apply opcode_field_range.
  replace (opcode_field b2 <=? 2) with false
    by (symmetry; apply Z.leb_gt; lia).
  reflexivity.
Qed.

Lemma ReadFrom_bad_rcode (h0 : DNSHeader) (b0 b1 b2 b3 : byte)
  (rest : list byte) :
  opcode_field b2 <= 2 -> 5 < rcode_field b3 ->
  ReadFrom h0 (b0 :: b1 :: b2 :: b3 :: rest) =
  Done (mkHeader (be16 b0 b1) (parseMsgType (be16 b2 b3)) (opcode_field b2)
          (parseAA (be16 b2 b3)) (parseTC (be16 b2 b3))
          (parseRD (be16 b2 b3)) (parseRA (be16 b2 b3)) 0
          (QuestionsCount h0) (AnswersCount h0) (NameserversCount h0)
          (AdditionalRecordsCount h0),
        Some (InvalidResponseCode (rcode_field b3))).
Proof.
  intros Hop Hrc. read_head.
  destruct (parse_fields b2 b3) as [-> ->].
  rewrite GetOpCodeFromInt_cases by apply opcode_field_range.
  rewrite GetResponseCodeFromInt_cases by apply rcode_field_range.
  replace (opcode_field b2 <=? 2) with true
    by (symmetry; apply Z.leb_le; lia).
  replace (rcode_field b3 <=? 5) with false
    by (symmetry; apply Z.leb_gt; lia).
  reflexivity.
Qed.

Lemma ReadFrom_good (h0 : DNSHeader)
  (b0 b1 b2 b3 b4 b5 b6 b7 b8 b9 b10 b11 : byte) (rest : list byte) :
  opcode_field b2 <= 2 -> rcode_field b3 <= 5 ->
  ReadFrom h0
    (b0 :: b1 :: b2 :: b3 :: b4 :: b5 :: b6 :: b7 :: b8 :: b9 :: b10 :: b11
        :: rest) =
  Done (mkHeader (be16 b0 b1) (parseMsgType (be16 b2 b3)) (opcode_field b2)
          (parseAA (be16 b2 b3)) (parseTC (be16 b2 b3))
          (parseRD (be16 b2 b3)) (parseRA (be16 b2 b3)) (rcode_field b3)
          (be16 b4 b5) (be16 b6 b7) (be16 b8 b9) (be16 b10 b11),
        None).
Proof.
  intros Hop Hrc. read_head.
  destruct (parse_fields b2 b3) as [-> ->].
  rewrite GetOpCodeFromInt_cases by apply opcode_field_range.
  rewrite GetResponseCodeFromInt_cases by apply rcode_field_range.
  replace (opcode_field b2 <=? 2) with true
    by (symmetry; apply Z.leb_le; lia).
  replace (rcode_field b3 <=? 5) with true
    by (symmetry; apply Z.leb_le; lia).
  reflexivity.
Qed.

(** What a successful [ReadFrom] says of its input. *)
Lemma ReadFrom_inv (h0 h : DNSHeader) (buf : list byte) :
  ReadFrom h0 buf = Done (h, None) ->
  exists b0 b1 b2 b3 b4 b5 b6 b7 b8 b9 b10 b11 rest,
    buf = b0 :: b1 :: b2 :: b3 :: b4 :: b5 :: b6 :: b7 :: b8 :: b9 :: b10
            :: b11 :: rest
    /\ opcode_field b2 <= 2 /\ rcode_field b3 <= 5.
Proof.
  intros H.
  destruct buf as [|b0 [|b1 [|b2 [|b3 buf]]]];
    try (unfold ReadFrom, suffix in H;
         cbn [length Nat.leb Nat.div Nat.divmod fst Nat.add skipn bind Uint16]
           in H; discriminate H).
  destruct (Z.leb_spec (opcode_field b2) 2) as [Hop | Hop].
  2:{ rewrite ReadFrom_bad_opcode in H by lia. discriminate H. }
  destruct (Z.leb_spec (rcode_field b3) 5) as [Hrc | Hrc].
  2:{ rewrite ReadFrom_bad_rcode in H by lia. discriminate H. }
  destruct buf as [|b4 [|b5 [|b6 [|b7 [|b8 [|b9 [|b10 [|b11 buf]]]]]]]];
    try (revert H; read_head;
         destruct (parse_fields b2 b3) as [-> ->];
         rewrite GetOpCodeFromInt_cases by apply opcode_field_range;
         rewrite GetResponseCodeFromInt_cases by apply rcode_field_range;
         replace (opcode_field b2 <=? 2) with true
           by (symmetry; apply Z.leb_le; lia);
         replace (rcode_field b3 <=? 5) with true
           by (symmetry; apply Z.leb_le; lia);
         discriminate).
  do 13 eexists. split; [reflexivity | split; assumption].
Qed.

Lemma be16_value (b0 b1 : byte) :
  be16 b0 b1 = Z_of_byte b1 + 256 * Z_of_byte b0.
Proof. unfold be16. apply lor_low_high. apply Z_of_byte_range. Qed.

Lemma byte_of_Z_congr (a b : Z) :
  a mod 256 = b mod 256 -> byte_of_Z a = byte_of_Z b.
Proof. unfold byte_of_Z. now intros ->. Qed.

Lemma be16_bytes_be16 (b0 b1 : byte) : be16_bytes (be16 b0 b1) = [b0; b1].
Proof.
  unfold be16_bytes. rewrite be16_value.
  pose proof (Z_of_byte_range b0). pose proof (Z_of_byte_range b1).
  rewrite Z.shiftr_div_pow2 by lia. change (2 ^ 8) with 256.
  replace ((Z_of_byte b1 + 256 * Z_of_byte b0) / 256) with (Z_of_byte b0)
    by (Z.div_mod_to_equations; lia).
  rewrite byte_of_Z_of_byte. f_equal. f_equal.
  rewrite <- (byte_of_Z_of_byte b1) at 2.
  apply byte_of_Z_congr. Z.div_mod_to_equations. lia.
Qed.

Lemma headerBits_repack (b2 b3 : byte) (id qc ac nc xc : Z) :
  opcode_field b2 <= 2 -> rcode_field b3 <= 5 ->
  be16_bytes
    (headerBitsOf
       (mkHeader id (parseMsgType (be16 b2 b3)) (opcode_field b2)
          (parseAA (be16 b2 b3)) (parseTC (be16 b2 b3))
          (parseRD (be16 b2 b3)) (parseRA (be16 b2 b3)) (rcode_field b3)
          qc ac nc xc))
  = [b2; byte_of_Z (Z.land (Z_of_byte b3) 143)].
Proof.
  intros Hop Hrc.
  pose proof (forall_bytes2_spec _ repack_check_all b2 b3) as H.
  unfold repack_check in H.
  destruct (parse_fields b2 b3) as [E1 E2]. rewrite E1, E2 in H.
  rewrite GetOpCodeFromInt_cases in H by apply opcode_field_range.
  rewrite GetResponseCodeFromInt_cases in H by apply rcode_field_range.
  replace (opcode_field b2 <=? 2) with true in H
    by (symmetry; apply Z.leb_le; lia).
  replace (rcode_field b3 <=? 5) with true in H
    by (symmetry; apply Z.leb_le; lia).
  apply andb_true_iff in H. destruct H as [H1 H2].
  apply Byte.byte_dec_bl in H1, H2.
  unfold be16_bytes.
  change (headerBitsOf (mkHeader id ?ty ?op ?aa ?tc ?rd ?ra ?rc qc ac nc xc))
    with (headerBitsOf (mkHeader 0 ty op aa tc rd ra rc 0 0 0 0)).
  now rewrite H1, H2.
Qed.

(** Encoding the header that [ReadFrom] decoded, into the buffer it was
    decoded from, changes nothing but the three reserved bits, which it
    clears. *)
Lemma ReadFrom_Encode (h0 h : DNSHeader) (buf : list byte) :
  ReadFrom h0 buf = Done (h, None) ->
  DNSHeader_Encode h buf = Done (clear_reserved buf, (12%nat, None)).
Proof.
  intros H.
  destruct (ReadFrom_inv _ _ _ H)
    as (b0 & b1 & b2 & b3 & b4 & b5 & b6 & b7 & b8 & b9 & b10 & b11 & rest
        & -> & Hop & Hrc).
  rewrite ReadFrom_good in H by assumption. injection H as <-.
  rewrite DNSHeader_Encode_ok by (cbn [length]; lia).
  unfold header_bytes.
  cbn [ID QuestionsCount AnswersCount NameserversCount AdditionalRecordsCount].
  pose proof (be16_bytes_be16 b0 b1) as E0.
  pose proof (be16_bytes_be16 b4 b5) as E4.
  pose proof (be16_bytes_be16 b6 b7) as E6.
  pose proof (be16_bytes_be16 b8 b9) as E8.
  pose proof (be16_bytes_be16 b10 b11) as E10.
  pose proof (headerBits_repack b2 b3 (be16 b0 b1) (be16 b4 b5) (be16 b6 b7)
                (be16 b8 b9) (be16 b10 b11) Hop Hrc) as E2.
  unfold be16_bytes in *.
  injection E0 as -> ->. injection E4 as -> ->. injection E6 as -> ->.
  injection E8 as -> ->. injection E10 as -> ->. injection E2 as -> ->.
  reflexivity.
Qed.

(** ** More on the assembler *)

Lemma on_suffix_inv {A : Type} (buf out : list byte) (lo : nat) (a : A)
  (f : list byte -> run (list byte * A)) :
  on_suffix buf lo f = Done (out, a) ->
  (lo <= length buf)%nat
  /\ exists sub, f (skipn lo buf) = Done (sub, a) /\ out = firstn lo buf ++ sub.
Proof.
  unfold on_suffix. destruct (lo <=? length buf)%nat eqn:E; [|discriminate].
  apply Nat.leb_le in E.
  destruct (f (skipn lo buf)) as [[sub a']|]; cbn [bind]; [|discriminate].
  intros H. injection H as <- <-. eauto.
Qed.

Lemma on_suffix_length {A : Type} (buf out : list byte) (lo : nat) (a : A)
  (f : list byte -> run (list byte * A)) :
  (forall sub o x, f sub = Done (o, x) -> length o = length sub) ->
  on_suffix buf lo f = Done (out, a) -> length out = length buf.
Proof.
  intros Hf H. apply on_suffix_inv in H.
  destruct H as (Hlo & sub & Hsub & ->).
  apply Hf in Hsub. rewrite length_app, Hsub, length_firstn, length_skipn. lia.
Qed.

Lemma copy_length (dst src out : list byte) (n : nat) :
  @Done (list byte * nat) (copy dst src) = Done (out, n) ->
  length out = length dst.
Proof.
  unfold copy. intros H. injection H as <- <-.
  rewrite length_app, length_firstn, length_skipn. lia.
Qed.

Lemma PutUint32_length (b out : list byte) (v : Z) (u : unit) :
  PutUint32 b v = Done (out, u) -> length out = length b.
Proof.
  destruct b as [|? [|? [|? [|? b]]]]; try discriminate.
  intros H. injection H as <-. reflexivity.
Qed.

Lemma PutUint16_length (b out : list byte) (v : Z) (u : unit) :
  PutUint16 b v = Done (out, u) -> length out = length b.
Proof.
  destruct b as [|? [|? b]]; try discriminate.
  intros H. injection H as <-. reflexivity.
Qed.

Lemma EncodeDomainName_length (buf out : list byte) (name : string)
  (r : nat * option error) :
  EncodeDomainName buf name = Done (out, r) -> length out = length buf.
Proof.
  destruct (EncodeDomainName_total buf name) as (o & n & e & -> & Hlen & _).
  intros H. injection H as <- _. exact Hlen.
Qed.

Ltac length_step H :=
  match type of H with
  | bind (on_suffix ?b ?lo ?f) _ = _ =>
      let E := fresh "E" in
      let L := fresh "L" in
      destruct (on_suffix b lo f) as [[? ?]|] eqn:E; cbn [bind] in H;
      [ apply on_suffix_length in E as L;
        [ | intros ? ? ? Hf; cbv beta in Hf;
            first [ now apply copy_length in Hf
                  | now apply PutUint32_length in Hf
                  | now apply PutUint16_length in Hf
                  | now apply EncodeDomainName_length in Hf ] ]
      | discriminate H ]
  end.

Lemma ResourceRecord_Encode_length (rr : ResourceRecord)
  (buf out : list byte) (r : nat * option error) :
  ResourceRecord_Encode rr buf = Done (out, r) -> length out = length buf.
Proof.
  unfold ResourceRecord_Encode. intros H.
  destruct (EncodeDomainName buf (rr_Name rr)) as [[b [n [e|]]]|] eqn:E;
    cbn [bind] in H; try discriminate H;
    apply EncodeDomainName_length in E.
  - injection H as <- _. exact E.
  - do 5 length_step H. injection H as <- _. congruence.
Qed.

Lemma Question_Encode_length (q : Question)
  (buf out : list byte) (r : nat * option error) :
  Question_Encode q buf = Done (out, r) -> length out = length buf.
Proof.
  unfold Question_Encode. intros H.
  destruct (EncodeDomainName buf (q_Name q)) as [[b [n [e|]]]|] eqn:E;
    cbn [bind] in H; try discriminate H;
    apply EncodeDomainName_length in E.
  - injection H as <- _. exact E.
  - do 2 length_step H. injection H as <- _. congruence.
Qed.

(** One loop of the assembler: the octets before the cursor stay as they
    are, the cursor does not go back, and the buffer keeps its length when
    the encoder of the elements keeps it. *)
Lemma encode_each_keeps {A : Type}
  (enc : A -> list byte -> run (list byte * (nat * option error)))
  (xs : list A) :
  (forall x buf out r, enc x buf = Done (out, r) -> length out = length buf) ->
  forall buf bytesWritten out n err,
    encode_each enc xs buf bytesWritten = Done (out, (n, err)) ->
    (bytesWritten <= n)%nat
    /\ length out = length buf
    /\ forall p, (p <= bytesWritten)%nat -> firstn p out = firstn p buf.
Proof.
  intros Henc.
  induction xs as [|x xs IH]; intros buf bw out n err H; cbn [encode_each] in H.
  - injection H as <- <- _. auto.
  - destruct (on_suffix buf bw (enc x)) as [[b [n1 [e|]]]|] eqn:E;
      cbn [bind] in H; try discriminate H.
    + injection H as <- <- _.
      pose proof (on_suffix_length _ _ _ _ _ (fun s o r => Henc x s o r) E) as L.
      apply on_suffix_inv in E. destruct E as (Hlo & sub & _ & ->).
      split; [lia | split; [exact L|]].
      intros p Hp. rewrite firstn_app, firstn_firstn.
      replace (p - length (firstn bw buf))%nat with 0%nat
        by (rewrite length_firstn; lia).
      cbn [firstn]. rewrite app_nil_r. f_equal. lia.
    + pose proof (on_suffix_length _ _ _ _ _ (fun s o r => Henc x s o r) E) as L.
      apply on_suffix_inv in E. destruct E as (Hlo & sub & _ & ->).
      apply IH in H. destruct H as (Hn & Hlen & Hpre).
      split; [lia | split; [congruence|]].
      intros p Hp. rewrite Hpre by lia.
      rewrite firstn_app, firstn_firstn.
      replace (p - length (firstn bw buf))%nat with 0%nat
        by (rewrite length_firstn; lia).
      cbn [firstn]. rewrite app_nil_r. f_equal. lia.
Qed.

Ltac each_step H Hs enc_length :=
  match type of H with
  | bind (encode_each ?enc ?xs ?b ?n) _ = _ =>
      let E := fresh "E" in
      let Hn := fresh "Hn" in
      let L := fresh "L" in
      let P := fresh "P" in
      destruct (encode_each enc xs b n) as [[? [? [?|]]]|] eqn:E;
      cbn [bind] in H;
      [ injection H as <-; discriminate Hs
      | apply (encode_each_keeps _ _ enc_length) in E as (Hn & L & P)
      | discriminate H ]
  end.

(** The datagram that [RespondToUDP] hands to the connection: it has
    between 12 and 512 octets, the first [bytesWritten] of the buffer, and
    begins with the header as updated, which the loops do not overwrite. *)
Lemma RespondToUDP_datagram (WriteTo : list byte -> option error)
  (headers : DNSHeader) (questions : list Question)
  (answers nameservers additionalRecords : list ResourceRecord)
  (r : responded) (d : list byte) :
  RespondToUDP WriteTo headers questions answers nameservers additionalRecords
  = Done r ->
  r_sent r = [d] ->
  d = firstn (r_bytesWritten r) (r_buf r)
  /\ (12 <= length d <= 512)%nat
  /\ firstn 12 d = header_bytes (r_headers r).
Proof.
  unfold RespondToUDP. intros H Hs.
  rewrite DNSHeader_Encode_ok in H by (rewrite zeros_length; lia).
  cbn [bind] in H.
  match type of H with
  | context [header_bytes ?hd ++ skipn 12 (zeros 512)] =>
      set (h := hd) in *;
      set (buf0 := header_bytes h ++ skipn 12 (zeros 512)) in *
  end.
  assert (L0 : length buf0 = 512%nat).
  { unfold buf0. rewrite length_app, length_skipn, zeros_length. reflexivity. }
  assert (P0 : firstn 12 buf0 = header_bytes h).
  { unfold buf0. change 12%nat with (length (header_bytes h)) at 1.
    apply firstn_length_app. }
  each_step H Hs Question_Encode_length.
  each_step H Hs ResourceRecord_Encode_length.
  each_step H Hs ResourceRecord_Encode_length.
  each_step H Hs ResourceRecord_Encode_length.
  unfold slice in H.
  destruct ((0 <=? _) && (_ <=? _))%nat eqn:Eb in H; [|discriminate H].
  apply andb_true_iff in Eb. destruct Eb as [_ Eb]. apply Nat.leb_le in Eb.
  cbn [bind] in H. rewrite Nat.sub_0_r in H. cbn [skipn] in H.
  assert (Hd : r_sent r = [firstn n2 l2] /\ r_bytesWritten r = n2
               /\ r_buf r = l2 /\ r_headers r = h).
  { destruct (WriteTo _) in H; injection H as <-; repeat split. }
  destruct Hd as (Hsent & -> & -> & ->).
  rewrite Hsent in Hs. injection Hs as <-.
  split; [reflexivity|]. split.
  - rewrite length_firstn. lia.
  - rewrite firstn_firstn.
    replace (Nat.min 12 n2) with 12%nat by lia.
    repeat match goal with
           | Hp : forall p, _ -> firstn p ?l = _ |- context [firstn 12 ?l] =>
               rewrite Hp by lia
           end.
    exact P0.
Qed.

(** ** More on the request handler *)

Lemma ReadFrom_twelve (h0 : DNSHeader) (buf : list byte) :
  (12 <= length buf)%nat ->
  let op := opcode_field (nth 2 buf x00) in
  let rc := rcode_field (nth 3 buf x00) in
  (op <= 2 /\ rc <= 5 /\ exists h, ReadFrom h0 buf = Done (h, None))
  \/ (2 < op /\ exists h, ReadFrom h0 buf = Done (h, Some (InvalidOpCode op)))
  \/ (op <= 2 /\ 5 < rc
      /\ exists h, ReadFrom h0 buf = Done (h, Some (InvalidResponseCode rc))).
Proof.
  intros Hlen.
  do 12 (destruct buf as [|? buf]; [cbn [length] in Hlen; lia|]).
  cbn [nth]. cbv zeta.
  destruct (Z.leb_spec (opcode_field b1) 2) as [Hop | Hop].
  - destruct (Z.leb_spec (rcode_field b2) 5) as [Hrc | Hrc].
    + left. rewrite ReadFrom_good by assumption. eauto.
    + right. right. rewrite ReadFrom_bad_rcode by assumption. eauto.
  - right. left. rewrite ReadFrom_bad_opcode by assumption. eauto.
Qed.

Lemma handleUDPPacket_error (ToLower : string -> string)
  (WriteTo : list byte -> option error) (srv : DNSServer)
  (buf : list byte) (h : DNSHeader) (e : error) :
  ReadFrom zeroHeader buf = Done (h, Some e) ->
  handleUDPPacket ToLower WriteTo srv buf = Done [].
Proof.
  intros H. unfold handleUDPPacket. now rewrite H.
Qed.

(** ** The zone test and the answers *)

Lemma substring_0_all (s : string) : substring 0 (String.length s) s = s.
Proof. induction s as [|c s IH]; simpl; congruence. Qed.

Lemma substring_skip (p s : string) (m : nat) :
  substring (String.length p) m (p ++ s) = substring 0 m s.
Proof. induction p as [|c p IH]; simpl; auto. Qed.

Lemma length_append (s t : string) :
  String.length (s ++ t) = (String.length s + String.length t)%nat.
Proof. induction s as [|c s IH]; simpl; auto. Qed.

Lemma substring_cut (s : string) :
  forall k, (k <= String.length s)%nat ->
            s = (substring 0 k s ++ substring k (String.length s - k) s)%string.
Proof.
  induction s as [|c s IH]; intros k Hk.
  - destruct k; [reflexivity | simpl in Hk; lia].
  - destruct k as [|k].
    + rewrite Nat.sub_0_r, substring_0_all. reflexivity.
    + simpl in Hk. cbn [substring String.append String.length Nat.sub].
      f_equal. apply IH. lia.
Qed.

Lemma HasSuffix_iff (s suffix : string) :
  HasSuffix s suffix = true <-> exists p, s = (p ++ suffix)%string.
Proof.
  unfold HasSuffix. rewrite andb_true_iff, Nat.leb_le, String.eqb_eq. split.
  - intros [Hle Hsub].
    exists (substring 0 (String.length s - String.length suffix) s).
    rewrite <- Hsub at 2.
    replace (String.length suffix)
      with (String.length s - (String.length s - String.length suffix))%nat
      at 3 by lia.
    apply substring_cut. lia.
  - intros [p ->]. rewrite length_append. split; [lia|].
    replace (String.length p + String.length suffix - String.length suffix)%nat
      with (String.length p) by lia.
    rewrite substring_skip. apply substring_0_all.
Qed.

(** ** The previous revision *)

Lemma qtype_Type_inj (a b : QTYPE) : qtype_Type a = qtype_Type b -> a = b.
Proof.
  destruct a, b; cbn [qtype_Type]; intros H; try reflexivity; discriminate H.
Qed.

Lemma find_exists {A : Type} (test : A -> bool) (l : list A) (x : A) :
  In x l -> test x = true -> exists y, find test l = Some y.
Proof.
  intros Hin Ht. destruct (find test l) as [y|] eqn:E; [eauto|].
  pose proof (find_none _ _ E _ Hin). congruence.
Qed.


Lemma Previous_RespondToUDP_empty (WriteTo : list byte -> option error)
  (headers : DNSHeader) :
  let h :=
    set_AdditionalRecordsCount
      (set_NameserversCount (set_AnswersCount headers 0) 0) 0 in
  exists r,
    Previous.RespondToUDP WriteTo headers [] [] [] = Done r
    /\ r_sent r = [header_bytes h ++ zeros 500].
Proof.
  intros h. unfold Previous.RespondToUDP.
  cbn [length Z.of_nat]. change (uint16 0) with 0. fold h.
  rewrite DNSHeader_Encode_ok by (rewrite zeros_length; lia).
  cbn [bind encode_each].
  change (skipn 12 (zeros 512)) with (zeros 500).
  destruct (WriteTo _); eexists; split; reflexivity.
Qed.

Lemma Previous_handleUDPPacket_cases (WriteTo : list byte -> option error)
  (buf : list byte) (rlen : nat) :
  (12 <= length buf)%nat ->
  let qr := parseMsgType (be16 (nth 2 buf x00) (nth 3 buf x00)) in
  let op := opcode_field (nth 2 buf x00) in
  if negb qr && negb ((op =? 1) || (op =? 2))
  then Previous.handleUDPPacket WriteTo buf rlen = Done []
  else exists h,
      Previous.handleUDPPacket WriteTo buf rlen
      = Done [header_bytes h ++ zeros 500]
      /\ ID h = be16 (nth 0 buf x00) (nth 1 buf x00)
      /\ Type_ h = qr
      /\ ResponseCode h = NotImplemented
      /\ AnswersCount h = 0
      /\ NameserversCount h = 0
      /\ AdditionalRecordsCount h = 0.
Proof.
  intros Hlen.
  do 12 (destruct buf as [|? buf]; [cbn [length] in Hlen; lia|]).
  cbn [nth]. cbv zeta. unfold Previous.handleUDPPacket.
  pose proof (opcode_field_range b1) as Hr.
  assert (Hop : opcode_field b1 = 0 \/ opcode_field b1 = 1
                \/ opcode_field b1 = 2 \/ 2 < opcode_field b1) by lia.
  destruct (Z.leb_spec (opcode_field b1) 2) as [Hle | Hgt].
  - destruct (Z.leb_spec (rcode_field b2) 5) as [Hrc | Hrc];
      [rewrite ReadFrom_good by assumption
      |rewrite ReadFrom_bad_rcode by assumption];
      cbn [bind Previous.setDefaultHeaders set_RecursionAvailable
             set_IsTruncated set_IsAuthoritative set_ResponseCode
             set_AnswersCount Type_ OpCode ID IsAuthoritative IsTruncated
             RecursionDesired RecursionAvailable ResponseCode QuestionsCount
             AnswersCount NameserversCount AdditionalRecordsCount];
      unfold QueryOp, QRQuery;
      destruct (parseMsgType (be16 b1 b2));
      destruct Hop as [E | [E | [E | E]]]; try lia; rewrite E;
      cbn [Bool.eqb negb orb andb Z.eqb Pos.eqb];
      try reflexivity;
      match goal with
      | |- context [Previous.RespondToUDP WriteTo ?hd [] [] []] =>
          destruct (Previous_RespondToUDP_empty WriteTo hd) as (r & -> & Hs)
      end;
      cbn [bind]; rewrite Hs; eexists; (split; [reflexivity|]);
      repeat split.
  - rewrite ReadFrom_bad_opcode by assumption.
    cbn [bind Previous.setDefaultHeaders set_RecursionAvailable
           set_IsTruncated set_IsAuthoritative set_ResponseCode set_OpCode
           set_Type set_ID zeroHeader
           set_AnswersCount Type_ OpCode ID IsAuthoritative IsTruncated
           RecursionDesired RecursionAvailable ResponseCode QuestionsCount
           AnswersCount NameserversCount AdditionalRecordsCount].
    unfold QueryOp, QRQuery.
    replace (opcode_field b1 =? 1) with false
      by (symmetry; apply Z.eqb_neq; lia).
    replace (opcode_field b1 =? 2) with false
      by (symmetry; apply Z.eqb_neq; lia).
    destruct (parseMsgType (be16 b1 b2));
      cbn [Bool.eqb negb orb andb Z.eqb]; try reflexivity.
    match goal with
    | |- context [Previous.RespondToUDP WriteTo ?hd [] [] []] =>
        destruct (Previous_RespondToUDP_empty WriteTo hd) as (r & -> & Hs)
    end.
    cbn [bind]. rewrite Hs. eexists. split; [reflexivity|]. repeat split.
Qed.

(** ** Questions, there and back *)

Lemma slice_mid (pre mid post : list byte) (lo hi : nat) :
  lo = length pre -> hi = (lo + length mid)%nat ->
  slice (pre ++ mid ++ post) lo hi = Done mid.
Proof.
  intros -> ->. unfold slice.
  replace ((length pre <=? length pre + length mid)
           && (length pre + length mid <=? length (pre ++ mid ++ post)))%nat
    with true.
  2:{ symmetry. apply andb_true_iff.
      split; apply Nat.leb_le; rewrite ?length_app; lia. }
  replace (length pre + length mid - length pre)%nat with (length mid) by lia.
  now rewrite skipn_length_app, firstn_length_app.
Qed.

Lemma ReadQuestionFrom_wire (q : Question) (rest : list byte) :
  Forall valid_label (Split (q_Name q)) ->
  qclass_Value (q_Class q) = [x00; x01] ->
  ReadQuestionFrom (wire_question q ++ rest) =
  Done ((String.length (q_Name q) + 6)%nat,
        Some (mkQuestion (q_Name q) (q_Type q) ClassIN), None).
Proof.
  intros Hv Hcl. destruct q as [name ty cl]. cbn [q_Name q_Type q_Class] in *.
  unfold ReadQuestionFrom, wire_question. cbn [q_Name q_Type q_Class].
  rewrite <- !app_assoc.
  rewrite DecodeDomainName_wire by assumption.
  pose proof (wire_name_length name) as HW.
  rewrite encoded_length_eq in HW.
  destruct (qtype_Value_two ty) as (t0 & t1 & Et).
  destruct (qclass_Value_two cl) as (c0 & c1 & Ec).
  rewrite (slice_mid (wire_name name) (qtype_Value ty))
    by (rewrite ?Et; cbn [length]; lia).
  cbn [bind]. rewrite bytesToQtype_Value. cbn [bind].
  rewrite app_assoc.
  rewrite (slice_mid (wire_name name ++ qtype_Value ty) (qclass_Value cl))
    by (rewrite ?length_app, ?Et, ?Ec; cbn [length]; lia).
  cbn [bind]. rewrite Hcl. cbn [bytesToClass].
  cbn. do 3 f_equal. lia.
Qed.

(** ** Further properties of the codec *)

(** X1: for every name that passes the checks of [EncodeDomainName] and
    every buffer with room, the function writes the wire form of the name
    (each label behind its length octet, then the root label) at the head
    of the buffer, leaves the rest of the buffer as it was and returns
    [len(name) + 2]. *)
Theorem X1_EncodeDomainName_wire (buf : list byte) (name : string) :
  encodable name ->
  (String.length name + 2 <= length buf)%nat ->
  EncodeDomainName buf name =
  Done (wire_name name ++ skipn (String.length name + 2) buf,
        ((String.length name + 2)%nat, None))
  /\ length (wire_name name) = (String.length name + 2)%nat.
Proof.
  intros [Hname Hlabels] Hbuf. split.
  - now apply EncodeDomainName_ok.
  - now rewrite wire_name_length, encoded_length_eq.
Qed.

Lemma X1_EncodeDomainName_wire_witness :
  EncodeDomainName (zeros 512) "kausm.in" =
  Done (wire_name "kausm.in" ++ skipn 10 (zeros 512), (10%nat, None))
  /\ length (wire_name "kausm.in") = 10%nat.
Proof.
  apply (X1_EncodeDomainName_wire (zeros 512) "kausm.in").
  - split; [simpl; lia | repeat (constructor; [simpl; lia|]); constructor].
  - simpl. lia.
Defined.

(** X2: when the first label of more than 63 octets comes after labels that
    fit, [EncodeDomainName] fails with LabelTooLong after it has written
    those labels: the buffer holds them, the count returned is their encoded
    length, and no terminator is written. *)
Theorem X2_EncodeDomainName_long_label (buf : list byte) (name : string)
  (pre post : list string) (bad : string) :
  (String.length name <= 255)%nat ->
  (String.length name + 2 <= length buf)%nat ->
  Split name = pre ++ bad :: post ->
  Forall (fun label => (String.length label <= 63)%nat) pre ->
  (63 < String.length bad)%nat ->
  EncodeDomainName buf name =
  Done (flat_map wire_label pre
          ++ skipn (length (flat_map wire_label pre)) buf,
        (length (flat_map wire_label pre), Some LabelTooLong)).
Proof. apply EncodeDomainName_long_label. Qed.

Lemma X2_EncodeDomainName_long_label_witness :
  EncodeDomainName (zeros 100) ("ab." ++ letters 64) =
  Done ([x02; x61; x62] ++ skipn 3 (zeros 100), (3%nat, Some LabelTooLong)).
Proof.
  apply (X2_EncodeDomainName_long_label (zeros 100) ("ab." ++ letters 64)
           ["ab"%string] [] (letters 64)).
  - simpl. lia.
  - simpl. lia.
  - reflexivity.
  - repeat (constructor; [simpl; lia|]). constructor.
  - simpl. lia.
Defined.

(** X3: [EncodeDomainName] returns on every name and buffer, without any
    index or slice out of range; the buffer keeps its length, the count
    returned is within it, and there is no error exactly when the name has
    at most 255 octets, its labels at most 63 each, and the buffer at least
    [len(name) + 2]. *)
Theorem X3_EncodeDomainName_total (buf : list byte) (name : string) :
  exists out n err,
    EncodeDomainName buf name = Done (out, (n, err))
    /\ length out = length buf
    /\ (n <= length buf)%nat
    /\ (err = None <->
        encodable name /\ (String.length name + 2 <= length buf)%nat).
Proof. apply EncodeDomainName_total. Qed.

(** X4: for every record whose name is accepted and every buffer with room
    for the name and the ten octets after it, [ResourceRecord.Encode] writes
    name, type, class, TTL and value length, then as much of the value as
    the buffer holds, and returns [len(name) + 12] whatever the length of
    the value. *)
Theorem X4_ResourceRecord_Encode_wire (rr : ResourceRecord)
  (buf : list byte) :
  encodable (rr_Name rr) ->
  (String.length (rr_Name rr) + 12 <= length buf)%nat ->
  ResourceRecord_Encode rr buf =
  Done (wire_record_head rr
          ++ firstn (Nat.min (length (rr_Value rr))
                       (length buf - (String.length (rr_Name rr) + 12)))
               (rr_Value rr)
          ++ skipn (String.length (rr_Name rr) + 12
                    + Nat.min (length (rr_Value rr))
                        (length buf - (String.length (rr_Name rr) + 12)))
               buf,
        ((String.length (rr_Name rr) + 12)%nat, None)).
Proof. intros He Hbuf. now apply ResourceRecord_Encode_ok. Qed.

Lemma X4_ResourceRecord_Encode_wire_witness :
  ResourceRecord_Encode testRR (zeros 30) =
  Done (wire_record_head testRR ++ [x2a; x45] ++ [], (28%nat, None)).
Proof.
  apply (X4_ResourceRecord_Encode_wire testRR (zeros 30)).
  - split; [simpl; lia | repeat (constructor; [simpl; lia|]); constructor].
  - simpl. lia.
Defined.

(** X5: with room for the name but for fewer than the ten octets after it,
    [ResourceRecord.Encode] panics (an index out of range in [PutUint32] or
    [PutUint16]) instead of returning the buffer-too-small error. *)
Theorem X5_ResourceRecord_Encode_short_panics (rr : ResourceRecord)
  (buf : list byte) :
  encodable (rr_Name rr) ->
  (String.length (rr_Name rr) + 2 <= length buf)%nat ->
  (length buf < String.length (rr_Name rr) + 12)%nat ->
  ResourceRecord_Encode rr buf = Panic.
Proof. apply ResourceRecord_Encode_short. Qed.

Lemma X5_ResourceRecord_Encode_short_panics_witness :
  ResourceRecord_Encode testRR (zeros 20) = Panic.
Proof.
  apply (X5_ResourceRecord_Encode_short_panics testRR (zeros 20)).
  - split; [simpl; lia | repeat (constructor; [simpl; lia|]); constructor].
  - simpl. lia.
  - simpl. lia.
Defined.

(** X6: for two names that are accepted, [EncodeSOA] returns, without
    error, the wire form of the first name, that of the second and the five
    integers as big-endian 32-bit values, in this order: exactly the
    [len(mname) + len(rname) + 24] octets of its buffer. *)
Theorem X6_EncodeSOA_payload (mname rname : string)
  (serial refresh retry expire minimum : Z) :
  encodable mname -> encodable rname ->
  EncodeSOA mname rname serial refresh retry expire minimum =
  Done (wire_name mname ++ wire_name rname
          ++ be32_bytes serial ++ be32_bytes refresh ++ be32_bytes retry
          ++ be32_bytes expire ++ be32_bytes minimum,
        None)
  /\ length (wire_name mname ++ wire_name rname
               ++ be32_bytes serial ++ be32_bytes refresh ++ be32_bytes retry
               ++ be32_bytes expire ++ be32_bytes minimum)
     = (String.length mname + String.length rname + 24)%nat.
Proof.
  intros Hm Hr. split; [now apply EncodeSOA_ok|].
  rewrite !length_app, !wire_name_length, !encoded_length_eq.
  cbn [be32_bytes length]. lia.
Qed.

Lemma X6_EncodeSOA_payload_witness :
  EncodeSOA "kausm.in" "kaustubh.kausm.in" 1 600 600 600 600 =
  Done (wire_name "kausm.in" ++ wire_name "kaustubh.kausm.in"
          ++ be32_bytes 1 ++ be32_bytes 600 ++ be32_bytes 600
          ++ be32_bytes 600 ++ be32_bytes 600,
        None)
  /\ length (wire_name "kausm.in" ++ wire_name "kaustubh.kausm.in"
               ++ be32_bytes 1 ++ be32_bytes 600 ++ be32_bytes 600
               ++ be32_bytes 600 ++ be32_bytes 600)
     = 49%nat.
Proof.
  apply (X6_EncodeSOA_payload "kausm.in" "kaustubh.kausm.in" 1 600 600 600 600).
  - split; [simpl; lia | repeat (constructor; [simpl; lia|]); constructor].
  - split; [simpl; lia | repeat (constructor; [simpl; lia|]); constructor].
Defined.

(** X7: [EncodeSOA] returns on every input; it succeeds exactly when both
    names are accepted by [EncodeDomainName]; otherwise it returns no payload
    and the name-too-long or the label-too-long error, never the
    buffer-too-small one. *)
Theorem X7_EncodeSOA_total (mname rname : string)
  (serial refresh retry expire minimum : Z) :
  exists out err,
    EncodeSOA mname rname serial refresh retry expire minimum = Done (out, err)
    /\ (err = None <-> encodable mname /\ encodable rname)
    /\ (err <> None ->
        out = [] /\ (err = Some NameTooLong \/ err = Some LabelTooLong)).
Proof. apply EncodeSOA_total. Qed.

(** X8: [bytesToQtype] returns a type exactly on the two octets that are
    the [Value] of that type: the table of codes and the thirteen type
    variables agree, and no two types share a code. *)
Theorem X8_bytesToQtype_Value (b : list byte) (t : QTYPE) :
  bytesToQtype b = Done (Some t, None) <-> b = qtype_Value t.
Proof.
  split.
  - apply bytesToQtype_inv.
  - intros ->. apply bytesToQtype_Value.
Qed.

(** X9: [bytesToClass] returns a class exactly on the two octets 00 01, the
    [Value] of [ClassIN], and the class is then [ClassIN] itself; every
    other input gives no class and an error: the length error when the
    input does not have two octets, and otherwise the error that carries
    the 16-bit code read, which is not 1. *)
Theorem X9_bytesToClass_IN (b : list byte) :
  (forall c,
      bytesToClass b = Done (Some c, None)
      <-> c = ClassIN /\ b = qclass_Value ClassIN)
  /\ (length b <> 2%nat -> bytesToClass b = Done (None, Some BadLength))
  /\ (forall b0 b1,
         b = [b0; b1] ->
         b <> qclass_Value ClassIN ->
         be16 b0 b1 <> 1
         /\ bytesToClass b
            = Done (None, Some (UnrecognizedClass (be16 b0 b1)))).
Proof.
  split; [|split].
  - intros c. split.
    + apply bytesToClass_inv.
    + intros [-> ->]. reflexivity.
  - intros Hlen. unfold bytesToClass.
    destruct (length b =? 2)%nat eqn:E; [|reflexivity].
    apply Nat.eqb_eq in E. contradiction.
  - intros b0 b1 -> Hne. now apply bytesToClass_other.
Qed.

Lemma X9_bytesToClass_IN_witness :
  bytesToClass [x00; x01] = Done (Some ClassIN, None)
  /\ bytesToClass [x01] = Done (None, Some BadLength)
  /\ bytesToClass [x00; x03] = Done (None, Some (UnrecognizedClass 3)).
Proof.
  split; [|split].
  - apply (proj1 (X9_bytesToClass_IN [x00; x01]) ClassIN). split; reflexivity.
  - apply (proj1 (proj2 (X9_bytesToClass_IN [x01]))). discriminate.
  - apply (proj2 (proj2 (X9_bytesToClass_IN [x00; x03])) x00 x03).
    + reflexivity.
    + discriminate.
Defined.

(** X10: for every question whose name is accepted and every buffer with
    room, [Question.Encode] writes the name, the two octets of the type and
    the two of the class, leaves the rest of the buffer as it was and
    returns [len(name) + 6]. *)
Theorem X10_Question_Encode_wire (q : Question) (buf : list byte) :
  encodable (q_Name q) ->
  (String.length (q_Name q) + 6 <= length buf)%nat ->
  Question_Encode q buf =
  Done (wire_question q ++ skipn (String.length (q_Name q) + 6) buf,
        ((String.length (q_Name q) + 6)%nat, None)).
Proof. apply Question_Encode_ok. Qed.

Lemma X10_Question_Encode_wire_witness :
  Question_Encode (mkQuestion "kausm.in" TypeA ClassIN) (zeros 512) =
  Done (wire_question (mkQuestion "kausm.in" TypeA ClassIN)
          ++ skipn 14 (zeros 512),
        (14%nat, None)).
Proof.
  apply (X10_Question_Encode_wire (mkQuestion "kausm.in" TypeA ClassIN)
           (zeros 512)).
  - split; [simpl; lia | repeat (constructor; [simpl; lia|]); constructor].
  - simpl. lia.
Defined.

(** X11: with room for the name but for fewer than the four octets of type
    and class, [Question.Encode] returns no error: it fills the buffer with
    the beginning of the question and returns the length of the buffer. *)
Theorem X11_Question_Encode_cut_short (q : Question) (buf : list byte) :
  encodable (q_Name q) ->
  (String.length (q_Name q) + 2 <= length buf)%nat ->
  (length buf < String.length (q_Name q) + 6)%nat ->
  Question_Encode q buf =
  Done (firstn (length buf) (wire_question q), (length buf, None)).
Proof. apply Question_Encode_cut. Qed.

Lemma X11_Question_Encode_cut_short_witness :
  Question_Encode (mkQuestion "kausm.in" TypeA ClassIN) (zeros 12) =
  Done (firstn (length (zeros 12))
          (wire_question (mkQuestion "kausm.in" TypeA ClassIN)),
        (length (zeros 12), None)).
Proof.
  apply (X11_Question_Encode_cut_short
           (mkQuestion "kausm.in" TypeA ClassIN) (zeros 12)).
  - split; [simpl; lia | repeat (constructor; [simpl; lia|]); constructor].
  - simpl. lia.
  - simpl. lia.
Defined.

(** X12: with the name decoder of the specification, [ReadQuestionFrom]
    reads back a question of class [ClassIN], the one class [bytesToClass]
    returns, from its wire form, whatever follows it: the question is the
    same, of any of the thirteen types, and the count is the length of the
    wire form, for every name whose labels have between 1 and 63 octets. *)
Theorem X12_ReadQuestionFrom_wire (q : Question) (rest : list byte) :
  Forall valid_label (Split (q_Name q)) ->
  q_Class q = ClassIN ->
  ReadQuestionFrom (wire_question q ++ rest) =
  Done (length (wire_question q), Some q, None).
Proof.
  intros Hv Hcl.
  rewrite ReadQuestionFrom_wire by (rewrite ?Hcl; auto).
  destruct q as [name ty cl]. cbn [q_Name q_Type q_Class] in *. subst cl.
  do 3 f_equal. unfold wire_question. cbn [q_Name q_Type q_Class].
  rewrite !length_app, wire_name_length, encoded_length_eq.
  destruct (qtype_Value_two ty) as (t0 & t1 & ->).
  cbn [qclass_Value length]. lia.
Qed.

Lemma X12_ReadQuestionFrom_wire_witness :
  ReadQuestionFrom
    (wire_question (mkQuestion "kausm.in" TypeMX ClassIN) ++ [xff]) =
  Done (length (wire_question (mkQuestion "kausm.in" TypeMX ClassIN)),
        Some (mkQuestion "kausm.in" TypeMX ClassIN), None).
Proof.
  apply (X12_ReadQuestionFrom_wire (mkQuestion "kausm.in" TypeMX ClassIN)
           [xff]).
  - repeat (constructor; [unfold valid_label; simpl; lia|]). constructor.
  - reflexivity.
Defined.

(** ** Further properties of the header codec *)

(** X13: [ReadFrom] on any input of at least four octets whose opcode field
    is above 2 returns the invalid-opcode error with that field, having
    assigned the ID, the message type and the opcode (to 0) and nothing
    else; when the opcode field is known and the response-code field is
    above 5 it returns the invalid-response-code error with that field,
    having assigned everything but the four counts. The opcode is checked
    first. *)
Theorem X13_ReadFrom_errors (h0 : DNSHeader) (b0 b1 b2 b3 : byte)
  (rest : list byte) :
  (2 < opcode_field b2 ->
   ReadFrom h0 (b0 :: b1 :: b2 :: b3 :: rest) =
   Done (mkHeader (be16 b0 b1) (parseMsgType (be16 b2 b3)) 0
           (IsAuthoritative h0) (IsTruncated h0) (RecursionDesired h0)
           (RecursionAvailable h0) (ResponseCode h0) (QuestionsCount h0)
           (AnswersCount h0) (NameserversCount h0)
           (AdditionalRecordsCount h0),
         Some (InvalidOpCode (opcode_field b2))))
  /\ (opcode_field b2 <= 2 -> 5 < rcode_field b3 ->
      ReadFrom h0 (b0 :: b1 :: b2 :: b3 :: rest) =
      Done (mkHeader (be16 b0 b1) (parseMsgType (be16 b2 b3))
              (opcode_field b2)
              (parseAA (be16 b2 b3)) (parseTC (be16 b2 b3))
              (parseRD (be16 b2 b3)) (parseRA (be16 b2 b3)) 0
              (QuestionsCount h0) (AnswersCount h0) (NameserversCount h0)
              (AdditionalRecordsCount h0),
            Some (InvalidResponseCode (rcode_field b3)))).
Proof.
  split.
  - intros Hop. now rewrite ReadFrom_bad_opcode.
  - intros Hop Hrc. now apply ReadFrom_bad_rcode.
Qed.

Lemma X13_ReadFrom_errors_witness :
  ReadFrom zeroHeader [x12; x34; xf8; x00] =
  Done (mkHeader 4660 true 0 false false false false 0 0 0 0 0,
        Some (InvalidOpCode 15))
  /\ ReadFrom zeroHeader [x12; x34; x8f; x8f] =
     Done (mkHeader 4660 true 1 true true true true 0 0 0 0 0,
           Some (InvalidResponseCode 15)).
Proof.
  split.
  - apply (proj1 (X13_ReadFrom_errors zeroHeader x12 x34 xf8 x00 [])).
    vm_compute. reflexivity.
  - apply (proj2 (X13_ReadFrom_errors zeroHeader x12 x34 x8f x8f [])).
    + vm_compute. discriminate.
    + vm_compute. reflexivity.
Defined.

(** X14: a header that [ReadFrom] decodes without error depends on the
    first twelve octets of the input alone: not on what the header held
    before, nor on what follows the twelve octets. *)
Theorem X14_ReadFrom_first_twelve (h0 h : DNSHeader) (buf : list byte) :
  ReadFrom h0 buf = Done (h, None) ->
  forall h1 rest, ReadFrom h1 (firstn 12 buf ++ rest) = Done (h, None).
Proof.
  intros H h1 rest.
  destruct (ReadFrom_inv _ _ _ H)
    as (b0 & b1 & b2 & b3 & b4 & b5 & b6 & b7 & b8 & b9 & b10 & b11 & tail
        & -> & Hop & Hrc).
  rewrite ReadFrom_good in H by assumption. injection H as <-.
  cbn [firstn app]. now apply ReadFrom_good.
Qed.

Lemma X14_ReadFrom_first_twelve_witness :
  ReadFrom (notImplementedHeader testQueryHeader)
    (firstn 12 queryNoSuch ++ [xff])
  = Done (testQueryHeader, None).
Proof.
  apply (X14_ReadFrom_first_twelve zeroHeader testQueryHeader queryNoSuch).
  vm_compute. reflexivity.
Defined.

(** X15: a header that [ReadFrom] decodes without error is valid: its
    opcode is Query, InverseQuery or Status, its response code one of the
    six known ones, its ID and counts 16-bit values. *)
Theorem X15_ReadFrom_valid (h0 h : DNSHeader) (buf : list byte) :
  ReadFrom h0 buf = Done (h, None) -> valid_header h.
Proof. apply ReadFrom_valid. Qed.

Lemma X15_ReadFrom_valid_witness : valid_header testQueryHeader.
Proof.
  apply (X15_ReadFrom_valid zeroHeader testQueryHeader queryNoSuch).
  vm_compute. reflexivity.
Defined.

(** X16: encoding the header that [ReadFrom] decoded, back into the buffer
    it came from, returns 12 and changes nothing in the buffer but the three
    reserved bits of the fourth octet, which become 0: decode and encode are
    inverse on inputs whose reserved bits are 0. *)
Theorem X16_ReadFrom_then_Encode (h0 h : DNSHeader) (buf : list byte) :
  ReadFrom h0 buf = Done (h, None) ->
  DNSHeader_Encode h buf = Done (clear_reserved buf, (12%nat, None)).
Proof. apply ReadFrom_Encode. Qed.

Lemma X16_ReadFrom_then_Encode_witness :
  DNSHeader_Encode testQueryHeader
    [x00; x2a; x01; x70; x00; x01; x00; x00; x00; x00; x00; x00; xaa]
  = Done (clear_reserved
            [x00; x2a; x01; x70; x00; x01; x00; x00; x00; x00; x00; x00; xaa],
          (12%nat, None)).
Proof.
  apply (X16_ReadFrom_then_Encode zeroHeader testQueryHeader).
  vm_compute. reflexivity.
Defined.

(** ** Further properties of the assembler and the handler *)



(** X18: the datagram that [RespondToUDP] hands to the connection has
    between 12 and 512 octets, and its first 12 octets are the header with
    the counts as updated: the loops over questions and records never write
    before their cursor. *)
Theorem X18_RespondToUDP_datagram (WriteTo : list byte -> option error)
  (headers : DNSHeader) (questions : list Question)
  (answers nameservers additionalRecords : list ResourceRecord)
  (r : responded) (d : list byte) :
  RespondToUDP WriteTo headers questions answers nameservers additionalRecords
  = Done r ->
  r_sent r = [d] ->
  d = firstn (r_bytesWritten r) (r_buf r)
  /\ (12 <= length d <= 512)%nat
  /\ firstn 12 d = header_bytes (r_headers r).
Proof. apply RespondToUDP_datagram. Qed.

Lemma X18_RespondToUDP_datagram_witness :
  exists r d,
    RespondToUDP (fun _ => None) zeroHeader
      [mkQuestion "test.kausm.in" TypeA ClassIN] [record1] [] [] = Done r
    /\ r_sent r = [d]
    /\ d = firstn (r_bytesWritten r) (r_buf r)
    /\ (12 <= length d <= 512)%nat
    /\ firstn 12 d = header_bytes (r_headers r).
Proof.
  eexists. eexists.
  split; [vm_compute; reflexivity|].
  split; [vm_compute; reflexivity|].
  eapply (X18_RespondToUDP_datagram (fun _ => None) zeroHeader
            [mkQuestion "test.kausm.in" TypeA ClassIN] [record1] [] []).
  - vm_compute. reflexivity.
  - vm_compute. reflexivity.
Defined.

(** X19: every request whose header [ReadFrom] decodes, a standard query
    too, is answered by [handleUDPPacket] with one datagram: the 12 octets
    of a header with the ID, opcode and recursion-desired flag of the
    request, the response flag, response code NotImplemented and counts 0.
    The question section of the request, the table of the server and the
    lower-casing play no part. *)
Theorem X19_handleUDPPacket_always_NotImplemented (buf : list byte)
  (h : DNSHeader) :
  ReadFrom zeroHeader buf = Done (h, None) ->
  forall ToLower WriteTo srv,
    handleUDPPacket ToLower WriteTo srv buf
    = Done [header_bytes (notImplementedHeader h)].
Proof.
  intros H ToLower WriteTo srv. now apply handleUDPPacket_NotImplemented.
Qed.

Lemma X19_handleUDPPacket_always_NotImplemented_witness :
  handleUDPPacket ToLowerASCII (fun _ => None) defaultServer queryNoSuch
  = Done [header_bytes (notImplementedHeader testQueryHeader)].
Proof.
  apply (X19_handleUDPPacket_always_NotImplemented queryNoSuch
           testQueryHeader).
  vm_compute. reflexivity.
Defined.

(** X20: on every input of at least 12 octets [handleUDPPacket] returns
    without panic and hands to the connection at most one datagram, of
    exactly 12 octets: none when the opcode field is above 2 or the
    response-code field above 5, one otherwise. *)
Theorem X20_handleUDPPacket_twelve (ToLower : string -> string)
  (WriteTo : list byte -> option error) (srv : DNSServer)
  (buf : list byte) :
  (12 <= length buf)%nat ->
  (handleUDPPacket ToLower WriteTo srv buf = Done []
   /\ (2 < opcode_field (nth 2 buf x00) \/ 5 < rcode_field (nth 3 buf x00)))
  \/ (exists d,
         handleUDPPacket ToLower WriteTo srv buf = Done [d]
         /\ length d = 12%nat
         /\ opcode_field (nth 2 buf x00) <= 2
         /\ rcode_field (nth 3 buf x00) <= 5).
Proof.
  intros Hlen.
  destruct (ReadFrom_twelve zeroHeader buf Hlen)
    as [(Hop & Hrc & h & H) | [(Hop & h & H) | (Hop & Hrc & h & H)]].
  - right. exists (header_bytes (notImplementedHeader h)).
    split; [now apply handleUDPPacket_NotImplemented|].
    split; [reflexivity | split; assumption].
  - left. split; [eapply handleUDPPacket_error; eassumption | now left].
  - left. split; [eapply handleUDPPacket_error; eassumption | now right].
Qed.

Lemma X20_handleUDPPacket_twelve_witness :
  (handleUDPPacket ToLowerASCII (fun _ => None) defaultServer queryNoSuch
   = Done []
   /\ (2 < opcode_field (nth 2 queryNoSuch x00)
       \/ 5 < rcode_field (nth 3 queryNoSuch x00)))
  \/ (exists d,
         handleUDPPacket ToLowerASCII (fun _ => None) defaultServer queryNoSuch
         = Done [d]
         /\ length d = 12%nat
         /\ opcode_field (nth 2 queryNoSuch x00) <= 2
         /\ rcode_field (nth 3 queryNoSuch x00) <= 5).
Proof.
  apply (X20_handleUDPPacket_twelve ToLowerASCII (fun _ => None)
           defaultServer queryNoSuch).
  vm_compute. lia.
Defined.

(** X21: [GetAnswers] returns at most one answer, a record of the table
    that matches the question, and none exactly when no record of the table
    matches; its authority and additional sections are always empty. *)
Theorem X21_GetAnswers_sections (ToLower : string -> string)
  (srv : DNSServer) (q : Question) :
  exists answers isAuthoritative,
    GetAnswers ToLower srv q = (answers, [], [], isAuthoritative)
    /\ (length answers <= 1)%nat
    /\ (forall r,
           In r answers ->
           In r (records srv)
           /\ record_matches ToLower (q_Type q) (q_Class q) (q_Name q) r)
    /\ (answers = [] <->
        Forall (fun r =>
                  ~ record_matches ToLower (q_Type q) (q_Class q) (q_Name q) r)
               (records srv)).
Proof.
  unfold GetAnswers, LookupRecords.
  pose proof (find_first _ _ (records srv)
                (record_matches_test ToLower (q_Type q) (q_Class q) (q_Name q)))
    as H.
  destruct (find _ (records srv)) as [r|].
  - destruct H as (before & after & Hrec & Hm & Hb).
    do 2 eexists. split; [reflexivity|]. cbn [app length].
    split; [lia|]. split.
    + intros r' [<- | []]. split; [|exact Hm].
      rewrite Hrec. apply in_or_app. right. now left.
    + split; [discriminate|]. intros Hall. exfalso.
      rewrite Hrec in Hall. apply Forall_app in Hall.
      destruct Hall as [_ Hall]. inversion Hall; subst. contradiction.
  - do 2 eexists. split; [reflexivity|]. cbn [length].
    split; [lia|]. split; [intros r' []|]. split; auto.
Qed.

(** X22: the authoritative flag of [GetAnswers] is set exactly when the
    lower-cased name ends with the eight characters kausm.in, whatever
    comes before them: the test is on characters, not on labels, and does
    not look at the table. *)
Theorem X22_GetAnswers_zone (ToLower : string -> string) (srv : DNSServer)
  (q : Question) :
  snd (GetAnswers ToLower srv q) = true
  <-> exists p, ToLower (q_Name q) = (p ++ "kausm.in")%string.
Proof.
  unfold GetAnswers. cbn [snd]. apply HasSuffix_iff.
Qed.

(** ** Further properties of the previous revision *)



(** X24: the [handleUDPPacket] of the previous revision, on an input of at
    least 12 octets: it answers nothing when the response bit of the request
    is clear and its opcode field is neither 1 nor 2 (a standard query, or
    an unknown opcode, whose error is dropped); otherwise it hands over one
    datagram of 512 octets, a header followed by zeros, with the ID of the
    request, response code NotImplemented and the response bit as it was in
    the request. *)
Theorem X24_Previous_handleUDPPacket (WriteTo : list byte -> option error)
  (buf : list byte) (rlen : nat) :
  (12 <= length buf)%nat ->
  if negb (parseMsgType (be16 (nth 2 buf x00) (nth 3 buf x00)))
     && negb ((opcode_field (nth 2 buf x00) =? 1)
              || (opcode_field (nth 2 buf x00) =? 2))
  then Previous.handleUDPPacket WriteTo buf rlen = Done []
  else exists h,
      Previous.handleUDPPacket WriteTo buf rlen
      = Done [header_bytes h ++ zeros 500]
      /\ length (header_bytes h ++ zeros 500) = 512%nat
      /\ ID h = be16 (nth 0 buf x00) (nth 1 buf x00)
      /\ Type_ h = parseMsgType (be16 (nth 2 buf x00) (nth 3 buf x00))
      /\ ResponseCode h = NotImplemented
      /\ AnswersCount h = 0
      /\ NameserversCount h = 0
      /\ AdditionalRecordsCount h = 0.
Proof.
  intros Hlen.
  pose proof (Previous_handleUDPPacket_cases WriteTo buf rlen Hlen) as H.
  cbv zeta in H.
  destruct (negb _ && negb _); [exact H|].
  destruct H as (h & H & Hrest). exists h.
  split; [exact H | split; [reflexivity | exact Hrest]].
Qed.

Lemma X24_Previous_handleUDPPacket_witness :
  Previous.handleUDPPacket (fun _ => None) queryNoSuch 33 = Done [].
Proof.
  assert (H : (12 <= length queryNoSuch)%nat) by (vm_compute; lia).
  exact (X24_Previous_handleUDPPacket (fun _ => None) queryNoSuch 33 H).
Defined.

(** X25: the [LookupRecords] of the previous revision, asked by the names
    of a type and a class, returns a record of the table of that type, of a
    class of that name, with exactly the queried name. It compares the
    names of the classes where the latest revision compares the
    descriptors: whenever the record it finds has the queried class
    descriptor itself, the [LookupRecords] of the latest revision, asked by
    the type and class themselves, finds a record too, whatever the
    lower-casing. *)
Theorem X25_Previous_LookupRecords (srv : DNSServer) (t : QTYPE)
  (c : QCLASS) (name : string) (r : ResourceRecord) :
  Previous.LookupRecords srv (qtype_Type t) (qclass_Class c) name = Some r ->
  In r (records srv)
  /\ rr_Type r = t
  /\ qclass_Class (rr_Class r) = qclass_Class c
  /\ rr_Name r = name
  /\ (rr_Class r = c ->
      forall ToLower,
      exists r', LookupRecords ToLower srv t c name = Some r').
Proof.
  unfold Previous.LookupRecords. intros H.
  apply find_some in H. destruct H as [Hin Ht].
  rewrite !andb_true_iff, !String.eqb_eq in Ht.
  destruct Ht as [[Hty Hcl] Hname]. apply qtype_Type_inj in Hty.
  split; [exact Hin|]. split; [exact Hty|]. split; [exact Hcl|].
  split; [exact Hname|].
  intros Hc ToLower. unfold LookupRecords.
  apply (find_exists _ _ r Hin).
  apply record_matches_test. unfold record_matches.
  split; [exact Hty|]. split; [exact Hc | now rewrite Hname].
Qed.

Lemma X25_Previous_LookupRecords_witness :
  In record1 (records defaultServer)
  /\ rr_Type record1 = TypeA
  /\ qclass_Class (rr_Class record1) = "IN"%string
  /\ rr_Name record1 = "test.kausm.in"%string
  /\ forall ToLower,
      exists r',
        LookupRecords ToLower defaultServer TypeA ClassIN "test.kausm.in"
        = Some r'.
Proof.
  assert (H : Previous.LookupRecords defaultServer (qtype_Type TypeA)
                (qclass_Class ClassIN) "test.kausm.in" = Some record1)
    by (vm_compute; reflexivity).
  destruct (X25_Previous_LookupRecords defaultServer TypeA ClassIN
              "test.kausm.in" record1 H) as (H1 & H2 & H3 & H4 & H5).
  split; [exact H1|]. split; [exact H2|]. split; [exact H3|].
  split; [exact H4|]. apply H5. reflexivity.
Defined.
